(** * SilentDownloads: a shallow embedding of the extension's decision logic

    The development follows the two scripts that decide what the extension
    does: [background.js] (log store, filename determination, notification
    sweeps, the settings messages) and [content.js] (mutation classifier,
    Notification constructor override, console override).

    Conventions.
    - JavaScript strings are Rocq [string]s (byte strings).  Every keyword the
      scripts look for is ASCII, so a match on the bytes of the UTF-8 form
      is a match on the UTF-16 form and conversely.  [toLowerCase] maps the
      letters A-Z and leaves every other byte alone.
    - Host callbacks are run to completion one after the other: an
      asynchronous [get]/[set] pair is one step of the model.  The log
      store is the exception: [logEvent] keeps the read of a [logMessage]
      call and the write of its callback apart, so that calls may overlap.
    - What the host decides (the clock, storage failures, JSON.stringify) is
      an argument of the function that depends on it. *)

From Stdlib Require Import String Ascii List Bool Arith Lia.
From stdpp Require Import base option gmap strings.
Import ListNotations.

Set Warnings "-register-all".
Local Open Scope string_scope.
#[local] Arguments String.append !_ _.

(** ** JavaScript values and strings *)

Module Js.

(** The values the extension stores and sends: absent/undefined, null,
    booleans and strings. *)
Inductive JsVal : Type :=
  | VUndefined
  | VNull
  | VBool (b : bool)
  | VStr (s : string).

Definition JsVal_eqb (a b : JsVal) : bool :=
  match a, b with
  | VUndefined, VUndefined => true
  | VNull, VNull => true
  | VBool x, VBool y => Bool.eqb x y
  | VStr x, VStr y => String.eqb x y
  | _, _ => false
  end.

(** [if (v)], [v && ...], [v || ...] *)
Definition truthy (v : JsVal) : bool :=
  match v with
  | VUndefined | VNull => false
  | VBool b => b
  | VStr s => negb (String.eqb s "")
  end.

(** [v !== false] *)
Definition notFalse (v : JsVal) : bool :=
  match v with
  | VBool false => false
  | _ => true
  end.

(** [a || b] *)
Definition jsOr (a b : JsVal) : JsVal := if truthy a then a else b.

(** [a ?? b] *)
Definition nullish (a b : JsVal) : JsVal :=
  match a with
  | VUndefined | VNull => b
  | _ => a
  end.

(** String conversion of a template literal, [`${v}`]. *)
Definition toStr (v : JsVal) : string :=
  match v with
  | VUndefined => "undefined"
  | VNull => "null"
  | VBool true => "true"
  | VBool false => "false"
  | VStr s => s
  end.

Definition slash : ascii := ascii_of_nat 47.
Definition backslash : ascii := ascii_of_nat 92.

Definition lowerChar (c : ascii) : ascii :=
  let n := nat_of_ascii c in
  if (65 <=? n)%nat && (n <=? 90)%nat then ascii_of_nat (n + 32) else c.

(** [s.toLowerCase()] *)
Fixpoint toLowerCase (s : string) : string :=
  match s with
  | EmptyString => EmptyString
  | String c s' => String (lowerChar c) (toLowerCase s')
  end.

(** [s.startsWith(k)] *)
Fixpoint startsWith (s k : string) : bool :=
  match k, s with
  | EmptyString, _ => true
  | String _ _, EmptyString => false
  | String a k', String b s' => Ascii.eqb a b && startsWith s' k'
  end.

(** [s.includes(k)] *)
Fixpoint includes (s k : string) : bool :=
  startsWith s k ||
  match s with
  | EmptyString => false
  | String _ s' => includes s' k
  end.

(** [s.split(sep)] for a separator of one character. The result is never
    empty: a string without the separator is returned whole. *)
Fixpoint split (sep : ascii) (s : string) : list string :=
  match s with
  | EmptyString => [EmptyString]
  | String c s' =>
      if Ascii.eqb c sep then EmptyString :: split sep s'
      else match split sep s' with
           | seg :: segs => String c seg :: segs
           | [] => [String c EmptyString]
           end
  end.

(** [parts.join(sep)] *)
Fixpoint join (sep : string) (parts : list string) : string :=
  match parts with
  | [] => ""
  | [p] => p
  | p :: rest => p ++ sep ++ join sep rest
  end.

(** [arr.pop()]: the last element and the array without it; [undefined]
    on the empty array. *)
Fixpoint pop {A : Type} (l : list A) : option A * list A :=
  match l with
  | [] => (None, [])
  | [x] => (Some x, [])
  | x :: rest => let '(r, rest') := pop rest in (r, x :: rest')
  end.

(** [keywords.some(k => s.includes(k))] *)
Definition someIncluded (keywords : list string) (s : string) : bool :=
  existsb (fun k => includes s k) keywords.

(** What the string tests are meant to decide: [k] occurs in [s], and [k]
    occurs in [s] up to the case of the letters of [s]. *)
Definition Substring (k s : string) : Prop :=
  exists pre post, s = pre ++ k ++ post.

Definition SubstringCI (k s : string) : Prop :=
  exists pre mid post, s = pre ++ mid ++ post /\ toLowerCase mid = k.

End Js.

(** ** background.js *)

Module Background.
Import Js.

(** A JavaScript object used as a record: a finite map from property names
    to values.  A property that is missing reads as [undefined]. *)
Definition prop (o : gmap string JsVal) (k : string) : JsVal :=
  default VUndefined (o !! k).

(** An object literal [{k1: v1, ..., kn: vn}]. *)
Definition object (fields : list (string * JsVal)) : gmap string JsVal :=
  list_to_map fields.

(** [console[level]] is called with one of these. *)
Inductive Level : Type := Info | Warn | Error.

Record LogEntry : Type := mkLogEntry {
  timestamp : string;
  level : Level;
  message : string;
  data : option string
}.

(** A host notification as the sweeps read it: [title] and [message],
    either of which may be missing. *)
Record NotificationRecord : Type := mkNotification {
  title : option string;
  text : option string
}.

Record DownloadItem : Type := mkDownloadItem {
  url : string;
  filename : JsVal
}.

(** [downloadDelta]: [state] is present when the state changed and then
    holds [current]. *)
Record DownloadDelta : Type := mkDownloadDelta {
  deltaId : nat;
  deltaState : option string
}.

Inductive ConflictAction : Type := Uniquify | Overwrite | Prompt.

(** The argument of [suggest]: [{}] or [{filename, conflictAction}]. *)
Inductive Suggestion : Type :=
  | SuggestDefault
  | SuggestFile (target : JsVal) (conflictAction : ConflictAction).

(** What a timer runs when it fires. *)
Inductive Task : Type := ClearAllNotifications.

(** The service worker's world: its one global, the two storage areas, the
    host's notifications, and what it has asked of the host so far. *)
Record State : Type := mkState {
  defaultDownloadPath : JsVal;
  sync : gmap string JsVal;
  errorLogs : option (list LogEntry);
  notifications : option (list (string * NotificationRecord));
  suggested : list Suggestion;
  timers : list (nat * Task)
}.

Definition setDefaultPath (p : JsVal) (st : State) : State :=
  mkState p (sync st) (errorLogs st) (notifications st) (suggested st)
          (timers st).
Definition setSync (m : gmap string JsVal) (st : State) : State :=
  mkState (defaultDownloadPath st) m (errorLogs st) (notifications st)
          (suggested st) (timers st).
Definition setErrorLogs (l : option (list LogEntry)) (st : State) : State :=
  mkState (defaultDownloadPath st) (sync st) l (notifications st)
          (suggested st) (timers st).
Definition setNotifications (n : option (list (string * NotificationRecord)))
    (st : State) : State :=
  mkState (defaultDownloadPath st) (sync st) (errorLogs st) n
          (suggested st) (timers st).
Definition addSuggested (s : Suggestion) (st : State) : State :=
  mkState (defaultDownloadPath st) (sync st) (errorLogs st) (notifications st)
          (suggested st ++ [s])%list (timers st).
Definition addTimer (delay : nat) (t : Task) (st : State) : State :=
  mkState (defaultDownloadPath st) (sync st) (errorLogs st) (notifications st)
          (suggested st) (timers st ++ [(delay, t)])%list.

(** What the host supplies to one handler run: the clock reading, and the
    error (if any) that [chrome.runtime.lastError] holds in the storage
    callback. *)
Record Host : Type := mkHost {
  now : string;
  lastError : option string;
  stringifyError : string -> string
}.

(** *** State and exceptions

    A computation changes the state and either returns or throws; what it
    changed before throwing stays changed. *)
Inductive Completion (A : Type) : Type :=
  | Return (a : A)
  | Throw (e : string).
Arguments Return {A} a.
Arguments Throw {A} e.

Definition M (A : Type) : Type := State -> Completion A * State.

Definition ret {A} (a : A) : M A := fun st => (Return a, st).
Definition throw {A} (e : string) : M A := fun st => (Throw e, st).
Definition bind {A B} (m : M A) (k : A -> M B) : M B :=
  fun st => match m st with
            | (Return a, st') => k a st'
            | (Throw e, st') => (Throw e, st')
            end.
Definition tryCatch {A} (m : M A) (handler : string -> M A) : M A :=
  fun st => match m st with
            | (Return a, st') => (Return a, st')
            | (Throw e, st') => handler e st'
            end.
Definition modify (f : State -> State) : M unit := fun st => (Return tt, f st).
Definition gets {A} (f : State -> A) : M A := fun st => (Return (f st), st).

Notation "'do' x <- m ; k" := (bind m (fun x => k))
  (at level 10, x name, m at level 100, k at level 200).
Notation "'run' m ; k" := (bind m (fun _ => k))
  (at level 10, m at level 100, k at level 200).

(** Reading a property of something that may be [undefined]. *)
Definition propOf (o : option (gmap string JsVal)) (k : string) : M JsVal :=
  match o with
  | Some obj => ret (prop obj k)
  | None => throw "TypeError: Cannot read properties of undefined"
  end.

(** Calling a string method on a value. *)
Definition asString (v : JsVal) : M string :=
  match v with
  | VStr s => ret s
  | _ => throw "TypeError: not a string"
  end.

(** *** chrome.storage

    [get(keys)] hands the callback an object with the stored keys among
    [keys]; when the read is rejected it hands it [undefined].  [set(items)]
    writes every item whose value is not [undefined]. *)
Definition storageGet (keys : list string) (h : Host) (st : State)
    : option (gmap string JsVal) :=
  match lastError h with
  | Some _ => None
  | None => Some (filter (fun kv => bool_decide (kv.1 ∈ keys)) (sync st))
  end.

Definition storageSet (items : list (string * JsVal))
    (store : gmap string JsVal) : gmap string JsVal :=
  fold_left (fun m kv => match kv.2 with
                         | VUndefined => m
                         | v => <[kv.1 := v]> m
                         end) items store.

(** *** logMessage (lines 6-26)

    [data] is the serialised form [JSON.stringify(data)] of a truthy data
    argument, [None] when the argument is missing or falsy.  The console
    line is not part of the state. *)
Definition isCritical (lvl : Level) : bool :=
  match lvl with
  | Error | Warn => true
  | Info => false
  end.

Definition pushCapped (e : LogEntry) (stored : option (list LogEntry))
    : list LogEntry :=
  let logs := default [] stored in
  let logs := (logs ++ [e])%list in
  if (50 <? List.length logs)%nat then tail logs else logs.

Definition logMessage (ts : string) (lvl : Level) (msg : string)
    (d : option string) (st : State) : State :=
  if isCritical lvl
  then setErrorLogs
         (Some (pushCapped (mkLogEntry ts lvl msg d) (errorLogs st))) st
  else st.

Definition log (h : Host) (lvl : Level) (msg : string) (d : option string)
    : M unit :=
  modify (logMessage (now h) lvl msg d).

(** A run of [logMessage] calls: (timestamp, level, message, data). *)
Definition LogCall : Type := string * Level * string * option string.

(** Calls made one after another, the callback of each having run before
    the next call is made. *)
Definition runLog (calls : list LogCall) (st : State) : State :=
  fold_left (fun s c => match c with
                        | (ts, lvl, msg, d) => logMessage ts lvl msg d s
                        end) calls st.

Definition entryOf (c : LogCall) : LogEntry :=
  match c with (ts, lvl, msg, d) => mkLogEntry ts lvl msg d end.

Definition callLevel (c : LogCall) : Level :=
  match c with (_, lvl, _, _) => lvl end.

(** Info lines reach the console only, whatever their data argument. *)
Definition logInfo (h : Host) (msg : string) : M unit := log h Info msg None.

Definition logError (h : Host) (msg : string) (e : string) : M unit :=
  log h Error msg (Some (stringifyError h e)).

Definition suggest (s : Suggestion) : M unit := modify (addSuggested s).

(** *** onDeterminingFilename (lines 107-144) *)

Definition pathSeparatorOf (name : string) : ascii :=
  if includes name "/" then slash else backslash.

(** [name.split(pathSeparator).pop()] *)
Definition lastSegment (sep : ascii) (name : string) : JsVal :=
  match fst (pop (split sep name)) with
  | Some seg => VStr seg
  | None => VUndefined
  end.

Definition targetPathOf (customPath : JsVal) (sep : ascii) (file : JsVal)
    : JsVal :=
  if truthy customPath
  then VStr (toStr customPath ++ String sep "" ++ toStr file)
  else file.

(** The body of the [try] block. *)
Definition determineFilename (h : Host) (result : option (gmap string JsVal))
    (item : DownloadItem) : M unit :=
  do silent <- propOf result "silentDownloads";
  if truthy silent then
    do configured <- propOf result "defaultPath";
    do inferred <- gets defaultDownloadPath;
    let customPath := jsOr configured inferred in
    do name <- asString (filename item);
    let pathSeparator := pathSeparatorOf name in
    let file := lastSegment pathSeparator name in
    let targetPath := targetPathOf customPath pathSeparator file in
    run logInfo h ("Using path: " ++ toStr customPath ++ ", filename: "
                   ++ toStr file);
    suggest (SuggestFile targetPath Uniquify)
  else
    suggest SuggestDefault.

Definition onDeterminingFilename (h : Host) (item : DownloadItem) : M bool :=
  run logInfo h "Processing download";
  do result <- gets (storageGet ["silentDownloads"; "defaultPath"] h);
  run tryCatch (determineFilename h result item)
        (fun e => run logError h "Error in filename determination" e;
                  suggest SuggestDefault);
  ret true.

(** *** onCreated (lines 147-184) *)

Definition downloadKeywords : list string :=
  ["download"; "save"; "complete"; "finish"].

(** [field && downloadKeywords.some(k => field.toLowerCase().includes(k))] *)
Definition fieldMatch (field : option string) : bool :=
  match field with
  | Some s => truthy (VStr s) && someIncluded downloadKeywords (toLowerCase s)
  | None => false
  end.

Definition isDownloadRelated (n : NotificationRecord) : bool :=
  fieldMatch (title n) || fieldMatch (text n).

(** [chrome.notifications.clear(id)] *)
Definition clearNotification (id : string) (st : State) : State :=
  setNotifications
    (option_map (List.filter (fun kv : string * NotificationRecord =>
                                negb (String.eqb kv.1 id)))
                (notifications st)) st.

(** [Object.keys(o).forEach(f)] over the object read when the loop starts. *)
Fixpoint forEach {A : Type} (l : list A) (f : A -> M unit) : M unit :=
  match l with
  | [] => ret tt
  | x :: rest => run f x; forEach rest f
  end.

(** The callback given to [chrome.notifications.getAll] on creation. *)
Definition sweepDownloadNotifications (h : Host) : M unit :=
  do all <- gets notifications;
  match all with
  | None => ret tt
  | Some ns =>
      forEach ns (fun kv =>
        if isDownloadRelated kv.2
        then run modify (clearNotification kv.1);
             logInfo h "Cleared download notification"
        else ret tt)
  end.

(** [result.silentDownloads && result.hideNotifications !== false] *)
Definition notificationsGate (result : option (gmap string JsVal)) : M bool :=
  do silent <- propOf result "silentDownloads";
  if truthy silent
  then do hide <- propOf result "hideNotifications"; ret (notFalse hide)
  else ret false.

Definition onCreated (h : Host) (item : DownloadItem) : M unit :=
  run logInfo h "Download created";
  do result <- gets (storageGet ["silentDownloads"; "hideNotifications"] h);
  tryCatch
    (do enabled <- notificationsGate result;
     if enabled then sweepDownloadNotifications h else ret tt)
    (fun e => logError h "Error handling download creation" e).

(** *** onChanged (lines 187-215) *)

(** The callback the 500 ms timer runs.  [Object.keys] of [undefined]
    throws. *)
Definition runTask (h : Host) (t : Task) : M unit :=
  match t with
  | ClearAllNotifications =>
      do all <- gets notifications;
      match all with
      | None => throw "TypeError: Cannot convert undefined or null to object"
      | Some ns =>
          forEach ns (fun kv =>
            run modify (clearNotification kv.1);
            logInfo h "Cleared completion notification")
      end
  end.

(** [downloadDelta.state?.current === 'complete'] *)
Definition isComplete (delta : DownloadDelta) : bool :=
  match deltaState delta with
  | Some current => String.eqb current "complete"
  | None => false
  end.

Definition onChanged (h : Host) (delta : DownloadDelta) : M unit :=
  run match deltaState delta with
      | Some current => logInfo h ("Download state changed to: " ++ current)
      | None => ret tt
      end;
  do result <- gets (storageGet ["silentDownloads"; "hideNotifications"] h);
  tryCatch
    (do enabled <- notificationsGate result;
     if enabled
     then if isComplete delta
          then modify (addTimer 500 ClearAllNotifications)
          else ret tt
     else ret tt)
    (fun e => logError h "Error handling download state change" e).

(** *** onMessage (lines 218-291) *)

Inductive Response : Type :=
  | SettingsResponse (fields : gmap string JsVal)
  | SaveResponse (success : bool) (error : option string)
  | LogsResponse (logs : list LogEntry)
  | ClearResponse (success : bool).

Definition settingsKeys : list string :=
  ["silentDownloads"; "defaultPath"; "hideNotifications"; "hideDownloadBar";
   "autoStart"].

Definition getSettings (h : Host) : M Response :=
  do result <- gets (storageGet settingsKeys h);
  do inferred <- gets defaultDownloadPath;
  match lastError h with
  | Some err =>
      run logError h "Error retrieving settings" err;
      ret (SettingsResponse (object
             [("error", VStr err);
              ("silentDownloads", VBool true);
              ("defaultPath", inferred);
              ("hideNotifications", VBool true);
              ("hideDownloadBar", VBool true);
              ("autoStart", VBool true)]))
  | None =>
      do silentDownloads <- propOf result "silentDownloads";
      do defaultPath <- propOf result "defaultPath";
      do hideNotifications <- propOf result "hideNotifications";
      do hideDownloadBar <- propOf result "hideDownloadBar";
      do autoStart <- propOf result "autoStart";
      let response := object
             [("silentDownloads", VBool (notFalse silentDownloads));
              ("defaultPath", nullish defaultPath inferred);
              ("hideNotifications", VBool (notFalse hideNotifications));
              ("hideDownloadBar", VBool (notFalse hideDownloadBar));
              ("autoStart", VBool (notFalse autoStart))] in
      run logInfo h "Sending settings to UI";
      ret (SettingsResponse response)
  end.

Definition settingsToSave (request : gmap string JsVal)
    : list (string * JsVal) :=
  [("silentDownloads", prop request "silentDownloads");
   ("defaultPath", prop request "defaultPath");
   ("hideNotifications", prop request "hideNotifications");
   ("hideDownloadBar", prop request "hideDownloadBar");
   ("autoStart", prop request "autoStart")].

Definition saveSettings (h : Host) (request : gmap string JsVal) : M Response :=
  run logInfo h "Saving settings";
  match lastError h with
  | Some err =>
      run logError h "Error saving settings" err;
      ret (SaveResponse false (Some err))
  | None =>
      run modify (fun st =>
            setSync (storageSet (settingsToSave request) (sync st)) st);
      run (if truthy (prop request "defaultPath")
           then run modify (setDefaultPath (prop request "defaultPath"));
                logInfo h "Updated default download path"
           else ret tt);
      run logInfo h "Settings saved successfully";
      ret (SaveResponse true None)
  end.

(** [request.action === name] *)
Definition actionIs (request : gmap string JsVal) (name : string) : bool :=
  JsVal_eqb (prop request "action") (VStr name).

(** The listener answers the four actions it knows and stays silent on any
    other request. *)
Definition onMessage (h : Host) (request : gmap string JsVal)
    : M (option Response) :=
  run logInfo h "Received message";
  if actionIs request "getSettings" then
    do r <- getSettings h; ret (Some r)
  else if actionIs request "saveSettings" then
    do r <- saveSettings h request; ret (Some r)
  else if actionIs request "getLogs" then
    do logs <- gets errorLogs;
    ret (Some (LogsResponse (default [] logs)))
  else if actionIs request "clearLogs" then
    run modify (setErrorLogs (Some []));
    ret (Some (ClearResponse true))
  else ret None.

(** The fields of a settings response, when the answer is one. *)
Definition responseFields (r : Completion (option Response))
    : option (gmap string JsVal) :=
  match r with
  | Return (Some (SettingsResponse fields)) => Some fields
  | _ => None
  end.

(** *** setDefaultDownloadPath, onInstalled, onStartup (lines 29-104) *)

(** What an awaited host call yields: its value, or the error it rejects
    with. *)
Inductive Awaited (A : Type) : Type :=
  | Fulfilled (a : A)
  | Rejected (e : string).
Arguments Fulfilled {A} a.
Arguments Rejected {A} e.

Definition await {A : Type} (p : Awaited A) : M A :=
  match p with
  | Fulfilled a => ret a
  | Rejected e => throw e
  end.

(** [parts = name.split(sep); parts.pop(); parts.join(sep)] *)
Definition directoryOf (name : string) : string :=
  let pathSeparator := pathSeparatorOf name in
  join (String pathSeparator "") (snd (pop (split pathSeparator name))).

(** The second attempt: every platform gets the same name. *)
Definition platformDefault (h : Host) (platform : Awaited string) : M unit :=
  tryCatch
    (do os <- await platform;
     run modify (setDefaultPath (VStr "Downloads"));
     logInfo h ("Using platform default path (" ++ os ++ ")"))
    (fun e =>
       run modify (setDefaultPath (VStr "Downloads"));
       log h Warn "Could not determine platform, using fallback path"
           (Some (stringifyError h e))).

Definition setDefaultDownloadPath (h : Host)
    (recent : Awaited (list DownloadItem)) (platform : Awaited string)
    : M unit :=
  tryCatch
    (do recentDownloads <- await recent;
     match recentDownloads with
     | lastDownload :: _ =>
         if truthy (filename lastDownload) then
           do name <- asString (filename lastDownload);
           run modify (setDefaultPath (VStr (directoryOf name)));
           logInfo h "Using path from recent download"
         else platformDefault h platform
     | [] => platformDefault h platform
     end)
    (fun e =>
       run modify (setDefaultPath (VStr "Downloads"));
       logError h "Error determining download path" e).

Definition initialPreferences : list (string * JsVal) :=
  [("silentDownloads", VBool true);
   ("defaultPath", VStr "");
   ("hideNotifications", VBool true);
   ("hideDownloadBar", VBool true);
   ("autoStart", VBool true)].

Definition onInstalled (h : Host) (recent : Awaited (list DownloadItem))
    (platform : Awaited string) : M unit :=
  run logInfo h "Extension installed or updated";
  run match lastError h with
      | Some err => logError h "Failed to set initial preferences" err
      | None =>
          run modify (fun st =>
                setSync (storageSet initialPreferences (sync st)) st);
          logInfo h "Initial preferences set successfully"
      end;
  tryCatch (setDefaultDownloadPath h recent platform)
           (fun e => logError h "Error in initial path setup" e).

Definition onStartup (h : Host) (recent : Awaited (list DownloadItem))
    (platform : Awaited string) : M unit :=
  run logInfo h "Browser started with extension loaded";
  tryCatch (setDefaultDownloadPath h recent platform)
           (fun e => logError h "Error setting download path on startup" e).

(** *** Reading the state *)

(** Which ids a loop over [ns] clears when it clears the entries that
    satisfy [P]. *)
Definition clearedBy (P : NotificationRecord -> bool)
    (ns : list (string * NotificationRecord)) (id : string) : bool :=
  existsb (fun kv : string * NotificationRecord =>
             P kv.2 && String.eqb id kv.1) ns.

Definition booleanKeys : list string :=
  ["silentDownloads"; "hideNotifications"; "hideDownloadBar"; "autoStart"].

(** The [n] most recent entries of a log. *)
Definition lastN {A : Type} (n : nat) (l : list A) : list A :=
  drop (length l - n) l.

Definition stored (st : State) : list LogEntry := default [] (errorLogs st).

Definition critical (c : LogCall) : bool := isCritical (callLevel c).

(** *** logMessage, the call and its callback apart (lines 12-24)

    [logMessage] above is a call together with its storage callback.  In
    the script the call only asks for the stored log
    ([chrome.storage.local.get], line 13) and returns; the callback runs
    later with the log as it was read, pushes the entry, drops the oldest
    entry above 50 and writes the result back (lines 14-23).  The host
    serves storage requests in the order they are made, so a call made
    before the callback of an earlier call has run reads the log without
    that call's entry, and a call made after it reads the log with it. *)

(** A callback that has not run yet: what it was given as
    [result.errorLogs] and the entry it will push. *)
Record PendingWrite : Type := mkPendingWrite {
  readLogs : option (list LogEntry);
  newEntry : LogEntry
}.

Inductive LogEvent : Type :=
  | Called (c : LogCall)
  | CallbackRan.

(** A [logMessage] call queues its callback when the level is warn or
    error; the oldest queued callback runs and writes. *)
Definition logEvent (world : State * list PendingWrite) (e : LogEvent)
    : State * list PendingWrite :=
  let '(st, pending) := world in
  match e with
  | Called c =>
      if isCritical (callLevel c)
      then (st, (pending ++ [mkPendingWrite (errorLogs st) (entryOf c)])%list)
      else (st, pending)
  | CallbackRan =>
      match pending with
      | [] => (st, [])
      | p :: rest =>
          (setErrorLogs (Some (pushCapped (newEntry p) (readLogs p))) st, rest)
      end
  end.

Definition runLogEvents (events : list LogEvent)
    (world : State * list PendingWrite) : State * list PendingWrite :=
  fold_left logEvent events world.

(** The schedule in which no two calls overlap. *)
Definition oneAfterAnother (calls : list LogCall) : list LogEvent :=
  flat_map (fun c => [Called c; CallbackRan]) calls.

(** The schedule in which all the calls are made before any callback runs,
    as when they are made in a row. *)
Definition inARow (calls : list LogCall) : list LogEvent :=
  (map Called calls ++ repeat CallbackRan (length calls))%list.

(** Every callback still to run was given a log within the cap. *)
Definition pendingCapped (pending : list PendingWrite) : Prop :=
  Forall (fun p => length (default [] (readLogs p)) <= 50) pending.

(** The log store is within its cap. *)
Definition capped (st : State) : Prop := length (stored st) <= 50.

(** A computation that keeps the log store within its cap, however it
    ends. *)
Definition KeepsCap {A : Type} (m : M A) : Prop :=
  forall st, capped st -> capped (snd (m st)).

(** *** Everything the service worker reacts to *)

Inductive Event : Type :=
  | Logged (c : LogCall)
  | Installed (h : Host) (recent : Awaited (list DownloadItem))
              (platform : Awaited string)
  | Started (h : Host) (recent : Awaited (list DownloadItem))
            (platform : Awaited string)
  | DeterminingFilename (h : Host) (item : DownloadItem)
  | Created (h : Host) (item : DownloadItem)
  | Changed (h : Host) (delta : DownloadDelta)
  | TimerFired (h : Host) (t : Task)
  | Message (h : Host) (request : gmap string JsVal).

Definition step (st : State) (e : Event) : State :=
  match e with
  | Logged (ts, lvl, msg, d) => logMessage ts lvl msg d st
  | Installed h recent platform => snd (onInstalled h recent platform st)
  | Started h recent platform => snd (onStartup h recent platform st)
  | DeterminingFilename h item => snd (onDeterminingFilename h item st)
  | Created h item => snd (onCreated h item st)
  | Changed h delta => snd (onChanged h delta st)
  | TimerFired h t => snd (runTask h t st)
  | Message h request => snd (onMessage h request st)
  end.

Definition runEvents (events : list Event) (st : State) : State :=
  fold_left step events st.

End Background.

(** ** content.js *)

Module Content.
Import Js.

(** *** The page

    A node is a text node, a comment or an element; an element is an HTML
    element or an SVG one ([svg]) and carries its [class] and [id]
    attributes (empty when absent), its [role] attribute and its children. *)
Inductive Node : Type :=
  | TextNode (data : string)
  | CommentNode (data : string)
  | Element (svg : bool) (classAttribute id : string) (role : option string)
            (children : list Node).

(** [node.nodeType === 1] *)
Definition isElement (n : Node) : bool :=
  match n with
  | Element _ _ _ _ _ => true
  | _ => false
  end.


(** The [class] attribute, which selectors test. *)
Definition classOf (n : Node) : string :=
  match n with
  | Element _ c _ _ _ => c
  | _ => ""
  end.

(** [element.className?.toString() || '']: the [class] attribute of an
    HTML element; on an SVG element [className] is an animated-string
    object and [toString] names its type. *)
Definition classNameOf (n : Node) : string :=
  match n with
  | Element true _ _ _ _ => "[object SVGAnimatedString]"
  | Element false c _ _ _ => c
  | _ => ""
  end.

Definition idOf (n : Node) : string :=
  match n with
  | Element _ _ i _ _ => i
  | _ => ""
  end.

Definition roleOf (n : Node) : option string :=
  match n with
  | Element _ _ _ r _ => r
  | _ => None
  end.

(** [node.textContent]: the text of all descendants in document order;
    comments inside an element do not contribute. *)
Fixpoint textContent (n : Node) : string :=
  match n with
  | TextNode d => d
  | CommentNode d => d
  | Element _ _ _ _ children =>
      (fix concat (l : list Node) : string :=
         match l with
         | [] => ""
         | CommentNode _ :: rest => concat rest
         | c :: rest => textContent c ++ concat rest
         end) children
  end.

(** The elements below [n], in document order. *)
Fixpoint descendants (n : Node) : list Node :=
  match n with
  | Element _ _ _ _ children =>
      (fix collect (l : list Node) : list Node :=
         match l with
         | [] => []
         | c :: rest =>
             ((if isElement c then [c] else []) ++ descendants c
              ++ collect rest)%list
         end) children
  | _ => []
  end.

(** [element.querySelectorAll('[class*="download"], [id*="download"]')]:
    an attribute selector compares the attribute value as written. *)
Definition querySelectorAllDownload (n : Node) : list Node :=
  List.filter (fun e => includes (classOf e) "download"
                        || includes (idOf e) "download")
              (descendants n).

(** *** MutationObserver callback (lines 169-213) *)

Definition mutationKeywords : list string :=
  ["download"; "downloaded"; "complete"; "saved"].

(** The first [if] of the loop body. *)
Definition selfMatch (element : Node) : bool :=
  let className := toLowerCase (classNameOf element) in
  let id := toLowerCase (idOf element) in
  let text := toLowerCase (textContent element) in
  let textHasKeywords := someIncluded mutationKeywords text in
  includes className "download"
  || includes id "download"
  || (includes className "notification" && textHasKeywords)
  || (includes className "toast" && textHasKeywords)
  || (match roleOf element with
      | Some r => String.eqb r "alert"
      | None => false
      end && textHasKeywords).

(** The second [if]: some element below matches the selector. *)
Definition subtreeMatch (element : Node) : bool :=
  (0 <? List.length (querySelectorAllDownload element))%nat.

Definition classify (element : Node) : bool :=
  selfMatch element || subtreeMatch element.

(** The inner loop over [mutation.addedNodes].  [inspected] lists the
    elements whose checks have run, oldest first; the loop leaves through
    [break] as soon as one of them sets [shouldHide]. *)
Fixpoint scanNodes (addedNodes : list Node) (inspected : list Node)
    : bool * list Node :=
  match addedNodes with
  | [] => (false, inspected)
  | node :: rest =>
      if negb (isElement node) then scanNodes rest inspected
      else if selfMatch node then (true, (inspected ++ [node])%list)
      else if subtreeMatch node then (true, (inspected ++ [node])%list)
      else scanNodes rest (inspected ++ [node])%list
  end.

(** The outer loop over the batch; a mutation record is its [addedNodes]. *)
Fixpoint scanMutations (mutations : list (list Node)) (inspected : list Node)
    : bool * list Node :=
  match mutations with
  | [] => (false, inspected)
  | addedNodes :: rest =>
      let '(shouldHide, inspected') := scanNodes addedNodes inspected in
      if shouldHide then (true, inspected')
      else scanMutations rest inspected'
  end.

(** The callback: whether the hide pass is (re)scheduled, with its delay,
    and the elements that were inspected. *)
Definition observerCallback (mutations : list (list Node))
    : option nat * list Node :=
  let '(shouldHide, inspected) := scanMutations mutations [] in
  (if shouldHide then Some 50 else None, inspected).

(** *** window.Notification override (lines 228-291) *)

Record NotificationOptions : Type := mkOptions {
  body : JsVal
}.

Inductive NotificationObject : Type :=
  | NoOpNotification
  | RealNotification (title : JsVal) (options : option NotificationOptions).

Definition notificationKeywords : list string :=
  ["download"; "downloaded"; "downloading"; "complete"; "saved"; "finished";
   "file"; ".zip"; ".pdf"; ".exe"; ".dmg"].

(** [v && typeof v === 'string' && keywords.some(...)] *)
Definition stringMatches (v : JsVal) : bool :=
  match v with
  | VStr s => truthy v && someIncluded notificationKeywords (toLowerCase s)
  | _ => false
  end.

Definition isDownloadNotification (title : JsVal)
    (options : option NotificationOptions) : bool :=
  if stringMatches title then true
  else match options with
       | Some o => stringMatches (body o)
       | None => false
       end.

Definition Notification (title : JsVal) (options : option NotificationOptions)
    : NotificationObject :=
  if isDownloadNotification title options then NoOpNotification
  else RealNotification title options.

(** *** console override (lines 294-345) *)

(** An argument of a console call: a string, an object with what
    [JSON.stringify] makes of it ([None] when that throws or yields no
    string), or anything else. *)
Inductive Arg : Type :=
  | AString (s : string)
  | AObject (json : option string)
  | AOther.

Definition argText (a : Arg) : string :=
  match a with
  | AString s => toLowerCase s
  | AObject (Some j) => toLowerCase j
  | AObject None => ""
  | AOther => ""
  end.

Definition joinedMessage (args : list Arg) : string :=
  join " " (map argText args).

Definition isDownloadMessage (args : list Arg) : bool :=
  match args with
  | [] => false
  | _ => includes (joinedMessage args) "download"
  end.

(** [args[0] && typeof args[0] === 'string' &&
     args[0].includes('[Silent Downloads]')] *)
Definition isOwnLog (args : list Arg) : bool :=
  match args with
  | AString s :: _ => truthy (VStr s) && includes s "[Silent Downloads]"
  | _ => false
  end.

(** What reaches the original method: [Some args] when the call is passed
    on, [None] when it is dropped. *)
Definition consoleLog (args : list Arg) : option (list Arg) :=
  if isOwnLog args then Some args
  else if negb (isDownloadMessage args) then Some args
  else None.


End Content.

(** ** Sample inputs *)

Module Samples.
Import Js Background Content.

Definition reportHost : Host := mkHost "2024-01-01T00:00:00.000Z" None id.

Definition reportItem : DownloadItem :=
  mkDownloadItem "https://example.com/report.pdf" (VStr "/tmp/x/report.pdf").

Definition reportState : State :=
  mkState (VStr "Downloads")
          (object [("silentDownloads", VBool true);
                   ("defaultPath", VStr "MyDownloads")])
          None (Some []) [] [].

Definition failingHost : Host :=
  mkHost "2024-01-01T00:00:00.000Z" (Some "QUOTA_BYTES quota exceeded") id.

Definition downloadDone : NotificationRecord :=
  mkNotification (Some "Download Complete")
                 (Some "Your test download has completed.").

Definition meetingReminder : NotificationRecord :=
  mkNotification (Some "Meeting reminder") (Some "Standup at 10:00").

Definition silentState : State :=
  mkState (VStr "Downloads")
          (object [("silentDownloads", VBool true);
                   ("defaultPath", VStr "");
                   ("hideNotifications", VBool true);
                   ("hideDownloadBar", VBool true);
                   ("autoStart", VBool true)])
          None
          (Some [("test-download-notification", downloadDone);
                 ("reminder-1", meetingReminder)])
          [] [].

Definition completed : DownloadDelta := mkDownloadDelta 7 (Some "complete").

Definition getSettingsRequest : gmap string JsVal :=
  object [("action", VStr "getSettings")].

(** What the options page sends when the user saves. *)
Definition optionsRequest : gmap string JsVal :=
  object [("action", VStr "saveSettings");
          ("silentDownloads", VBool true);
          ("defaultPath", VStr "MyDownloads");
          ("hideNotifications", VBool false);
          ("hideDownloadBar", VBool true);
          ("autoStart", VBool true);
          ("conflictAction", VStr "overwrite")].

(** A profile whose sync store holds nothing. *)
Definition emptyStore : State :=
  mkState (VStr "Downloads") ∅ None
          (Some [("test-download-notification", downloadDone)]) [] [].

(** The same profile with silentDownloads stored as true. *)
Definition storedTrue : State :=
  setSync (object [("silentDownloads", VBool true)]) emptyStore.

(** Two failures logged one right after the other. *)
Definition firstFailure : LogCall :=
  ("2024-01-01T09:00:00.000Z", Error, "Error in filename determination",
   Some "{}").
Definition secondFailure : LogCall :=
  ("2024-01-01T09:00:00.001Z", Warn,
   "Could not determine platform, using fallback path", Some "{}").

(** Sixty warn/error calls with distinct timestamps. *)
Definition sixtyCalls : list LogCall :=
  map (fun i => (String (ascii_of_nat (32 + i)) "",
                 if Nat.even i then Warn else Error,
                 "entry", None))
      (seq 1 60).

(** A shelf whose class is written in capitals, and a wrapper around it. *)
Definition capitalShelf : Node := Element false "DownloadShelf" "" None [].
Definition wrappedCapitalShelf : Node :=
  Element false "wrapper" "" None [capitalShelf].
Definition toast : Node :=
  Element false "toast" "" None
          [TextNode "File "; Element false "" "" None [TextNode "Saved"]].
Definition paragraph : Node :=
  Element false "article" "main" None [TextNode "Hello"].

(** An icon drawn in SVG, with a lower-case class. *)
Definition svgIcon : Node := Element true "download-icon" "" None [].

End Samples.

(** * Properties *)

Import Js Samples.

(** ** Strings *)

Section StringFacts.

Lemma append_assoc (a b c : string) : (a ++ b) ++ c = a ++ b ++ c.
Proof. induction a as [|x a IH]; simpl; [reflexivity | now rewrite IH]. Qed.

Lemma append_empty_r (a : string) : a ++ "" = a.
Proof. induction a as [|x a IH]; simpl; [reflexivity | now rewrite IH]. Qed.

Lemma startsWith_spec (s k : string) :
  startsWith s k = true <-> exists post, s = k ++ post.
Proof.
  revert s; induction k as [|a k IH]; intros s; simpl.
  - split; [intros _; now exists s | now destruct s].
  - destruct s as [|b s]; simpl.
    + split; [discriminate | intros [post H]; discriminate].
    + rewrite andb_true_iff, Ascii.eqb_eq, IH. split.
      * intros [-> [post ->]]. now exists post.
      * intros [post H]. injection H as -> ->.
        split; [reflexivity | now exists post].
Qed.

Lemma includes_spec (s k : string) : includes s k = true <-> Substring k s.
Proof.
  unfold Substring. induction s as [|c s IH]; cbn [includes].
  - rewrite orb_false_r, startsWith_spec. split.
    + intros [post H]. now exists "", post.
    + intros [pre [post H]].
      destruct pre; simpl in H; [now exists post|discriminate].
  - rewrite orb_true_iff, IH. split.
    + intros [H | [pre [post ->]]].
      * apply startsWith_spec in H as [post H]. now exists "", post.
      * now exists (String c pre), post.
    + intros [pre [post H]]. destruct pre as [|x pre]; simpl in H.
      * left. apply startsWith_spec. now exists post.
      * right. injection H as _ ->. now exists pre, post.
Qed.

Lemma includes_false (s k : string) : includes s k = false <-> ~ Substring k s.
Proof. rewrite <- includes_spec. destruct (includes s k); split; congruence. Qed.

Lemma toLowerCase_app (a b : string) :
  toLowerCase (a ++ b) = toLowerCase a ++ toLowerCase b.
Proof. induction a as [|x a IH]; simpl; [reflexivity | now rewrite IH]. Qed.

Lemma toLowerCase_split (s x y : string) :
  toLowerCase s = x ++ y ->
  exists a b, s = a ++ b /\ toLowerCase a = x /\ toLowerCase b = y.
Proof.
  revert s; induction x as [|c x IH]; intros s H; simpl in H.
  - now exists "", s.
  - destruct s as [|d s]; simpl in H; [discriminate|].
    injection H as Hc H. destruct (IH _ H) as (a & b & -> & Ha & Hb).
    exists (String d a), b. simpl. now rewrite Hc, Ha.
Qed.

(** Searching the lower-cased string for [k] is searching the string for
    [k] in any letter case. *)
Lemma includes_lower_spec (s k : string) :
  includes (toLowerCase s) k = true <-> SubstringCI k s.
Proof.
  rewrite includes_spec. unfold Substring, SubstringCI. split.
  - intros (pre & post & H).
    apply toLowerCase_split in H as (a & r & -> & Ha & H).
    apply toLowerCase_split in H as (m & b & -> & Hm & Hb).
    now exists a, m, b.
  - intros (pre & mid & post & -> & <-).
    exists (toLowerCase pre), (toLowerCase post).
    now rewrite !toLowerCase_app.
Qed.

Lemma someIncluded_spec (keywords : list string) (s : string) :
  someIncluded keywords s = true <-> exists k, In k keywords /\ Substring k s.
Proof.
  unfold someIncluded. rewrite existsb_exists.
  split; intros (k & Hin & H); exists k; split; auto; now apply includes_spec.
Qed.

Lemma someIncluded_lower_spec (keywords : list string) (s : string) :
  someIncluded keywords (toLowerCase s) = true
  <-> exists k, In k keywords /\ SubstringCI k s.
Proof.
  unfold someIncluded. rewrite existsb_exists.
  split; intros (k & Hin & H); exists k; split; auto;
    now apply includes_lower_spec.
Qed.

Lemma split_nonempty (sep : ascii) (s : string) : split sep s <> [].
Proof.
  destruct s as [|c s]; simpl; [discriminate|].
  destruct (Ascii.eqb c sep); [discriminate|].
  destruct (split sep s); discriminate.
Qed.

Lemma split_join (sep : ascii) (s : string) :
  join (String sep "") (split sep s) = s.
Proof.
  induction s as [|c s IH]; simpl; [reflexivity|].
  destruct (Ascii.eqb_spec c sep) as [->|Hne].
  - pose proof (split_nonempty sep s) as Hn.
    destruct (split sep s) as [|seg segs]; [contradiction|].
    cbn [join]. simpl. now rewrite <- IH.
  - pose proof (split_nonempty sep s) as Hn.
    destruct (split sep s) as [|seg segs]; [contradiction|].
    rewrite <- IH. destruct segs; reflexivity.
Qed.

Lemma includes_cons_false (c sep : ascii) (s : string) :
  c <> sep -> includes s (String sep "") = false ->
  includes (String c s) (String sep "") = false.
Proof.
  intros Hne H. cbn [includes]. rewrite H, orb_false_r. simpl.
  destruct (Ascii.eqb_spec sep c); [congruence|reflexivity].
Qed.

Lemma split_noSep (sep : ascii) (s : string) :
  Forall (fun seg => includes seg (String sep "") = false) (split sep s).
Proof.
  induction s as [|c s IH]; simpl.
  - constructor; [reflexivity | constructor].
  - destruct (Ascii.eqb_spec c sep) as [->|Hne].
    + constructor; [reflexivity | exact IH].
    + destruct (split sep s) as [|seg segs].
      * constructor; [|constructor]. now apply includes_cons_false.
      * inversion IH; subst. constructor; [|assumption].
        now apply includes_cons_false.
Qed.

Lemma pop_snoc {A : Type} (l : list A) (x : A) : pop (l ++ [x])%list = (Some x, l).
Proof.
  induction l as [|y l IH]; [reflexivity|].
  cbn [List.app pop]. rewrite IH. destruct (l ++ [x])%list eqn:E; [|reflexivity].
  destruct l; discriminate.
Qed.

Lemma join_snoc (sep : string) (init : list string) (x : string) :
  init <> [] -> join sep (init ++ [x])%list = join sep init ++ sep ++ x.
Proof.
  induction init as [|p init IH]; [congruence|]. intros _.
  destruct init as [|q init]; [reflexivity|].
  change (p ++ sep ++ join sep ((q :: init) ++ [x])%list
          = (p ++ sep ++ join sep (q :: init)) ++ sep ++ x).
  rewrite IH by discriminate. now rewrite !append_assoc.
Qed.

(** The segment that [split] and [pop] select is what follows the last
    separator. *)
Lemma lastSegment_spec (sep : ascii) (name : string) :
  includes name (String sep "") = true ->
  exists dir seg,
    Background.lastSegment sep name = VStr seg
    /\ name = dir ++ String sep seg
    /\ includes seg (String sep "") = false.
Proof.
  intros Hin. unfold Background.lastSegment.
  pose proof (split_join sep name) as Hj.
  pose proof (split_noSep sep name) as Hf.
  destruct (exists_last (split_nonempty sep name)) as (init & seg & E).
  rewrite E in *. rewrite pop_snoc. cbn [fst].
  apply Forall_app in Hf as [_ Hf]. apply Forall_inv in Hf as Hseg.
  destruct init as [|p init].
  - simpl in Hj. congruence.
  - exists (join (String sep "") (p :: init)), seg.
    rewrite join_snoc in Hj by discriminate. now rewrite <- Hj.
Qed.

(** A name without the separator is its own last segment. *)
Lemma lastSegment_whole (sep : ascii) (name : string) :
  includes name (String sep "") = false ->
  Background.lastSegment sep name = VStr name.
Proof.
  intros Hin. unfold Background.lastSegment.
  pose proof (split_join sep name) as Hj.
  destruct (exists_last (split_nonempty sep name)) as (init & seg & E).
  rewrite E in *. rewrite pop_snoc. cbn [fst].
  destruct init as [|p init]; [simpl in Hj; congruence|].
  rewrite join_snoc in Hj by discriminate.
  assert (includes name (String sep "") = true) as Ht; [|congruence].
  apply includes_spec. exists (join (String sep "") (p :: init)), seg.
  now rewrite <- Hj.
Qed.

End StringFacts.

(** ** The service worker *)

Import Background.

Section StorageFacts.

Lemma prop_filter (keys : list string) (m : gmap string JsVal) (k : string) :
  k ∈ keys ->
  prop (filter (fun kv : string * JsVal => bool_decide (kv.1 ∈ keys)) m) k
  = prop m k.
Proof.
  intros Hk. unfold prop. rewrite map_lookup_filter.
  destruct (m !! k) as [v|]; simpl; [|reflexivity].
  rewrite option_guard_True; [reflexivity|].
  simpl. now apply bool_decide_pack.
Qed.

Lemma lookup_filter_notin (keys : list string) (m : gmap string JsVal)
    (k : string) :
  k ∉ keys ->
  filter (fun kv : string * JsVal => bool_decide (kv.1 ∈ keys)) m !! k = None.
Proof.
  intros Hk. rewrite map_lookup_filter.
  destruct (m !! k) as [v|]; simpl; [|reflexivity].
  rewrite option_guard_False; [reflexivity|].
  simpl. intros H. now apply bool_decide_unpack in H.
Qed.

(** A successful read hands the callback the stored values of the keys it
    asked for. *)
Lemma storageGet_ok (keys : list string) (h : Host) (st : State) :
  lastError h = None ->
  exists result,
    storageGet keys h st = Some result
    /\ forall k, k ∈ keys -> prop result k = prop (sync st) k.
Proof.
  intros Hok. unfold storageGet. rewrite Hok. eexists. split; [reflexivity|].
  intros k Hk. now apply prop_filter.
Qed.

Lemma storageGet_failed (keys : list string) (h : Host) (st : State) :
  lastError h <> None -> storageGet keys h st = None.
Proof. unfold storageGet. destruct (lastError h); congruence. Qed.

Lemma storageSet_notin (items : list (string * JsVal))
    (m : gmap string JsVal) (k : string) :
  k ∉ map fst items -> storageSet items m !! k = m !! k.
Proof.
  unfold storageSet. revert m.
  induction items as [|[k' v'] items IH]; intros m Hk; [reflexivity|].
  cbn [fold_left]. simpl in Hk. apply not_elem_of_cons in Hk as [Hne Hk].
  rewrite IH by assumption. simpl.
  destruct v'; try reflexivity; now rewrite lookup_insert_ne.
Qed.

Lemma storageSet_in (items : list (string * JsVal))
    (m : gmap string JsVal) (k : string) (v : JsVal) :
  NoDup (map fst items) -> (k, v) ∈ items -> v <> VUndefined ->
  storageSet items m !! k = Some v.
Proof.
  unfold storageSet. revert m.
  induction items as [|[k' v'] items IH]; intros m Hnd Hin Hv.
  - now apply elem_of_nil in Hin.
  - cbn [fold_left]. simpl in Hnd. apply NoDup_cons in Hnd as [Hk' Hnd].
    apply elem_of_cons in Hin as [Heq | Hin].
    + injection Heq as <- <-.
      pose proof (storageSet_notin items) as Hrest. unfold storageSet in Hrest.
      rewrite Hrest by assumption. simpl.
      destruct v; try congruence; apply lookup_insert_eq.
    + now apply IH.
Qed.

End StorageFacts.

Section FilenameFacts.

Variable h : Host.
Variable item : DownloadItem.
Variable st : State.

(** With silent downloads on and a string for a name, the handler makes one
    suggestion and changes nothing else. *)
Lemma onDeterminingFilename_silent (name : string) :
  lastError h = None ->
  truthy (prop (sync st) "silentDownloads") = true ->
  filename item = VStr name ->
  onDeterminingFilename h item st
  = (Return true,
     addSuggested
       (SuggestFile
          (targetPathOf
             (jsOr (prop (sync st) "defaultPath") (defaultDownloadPath st))
             (pathSeparatorOf name)
             (lastSegment (pathSeparatorOf name) name))
          Uniquify) st).
Proof.
  intros Hok Hsilent Hname.
  unfold onDeterminingFilename, determineFilename, bind, tryCatch, gets, logInfo,
    log, modify, suggest, ret. cbn [logMessage isCritical].
  unfold storageGet. rewrite Hok. cbn [propOf ret].
  rewrite !prop_filter by set_solver. rewrite Hsilent, Hname. reflexivity.
Qed.

(** With silent downloads off the handler defers to the host. *)
Lemma onDeterminingFilename_off :
  lastError h = None ->
  truthy (prop (sync st) "silentDownloads") = false ->
  onDeterminingFilename h item st
  = (Return true, addSuggested SuggestDefault st).
Proof.
  intros Hok Hsilent.
  unfold onDeterminingFilename, determineFilename, bind, tryCatch, gets, logInfo,
    log, modify, suggest, ret. cbn [logMessage isCritical].
  unfold storageGet. rewrite Hok. cbn [propOf ret].
  rewrite !prop_filter by set_solver. rewrite Hsilent. reflexivity.
Qed.

(** Whatever the [try] block throws, it throws before it has called
    [suggest] or touched the state. *)
Lemma determineFilename_throw (result : option (gmap string JsVal))
    (e : string) (st' : State) :
  determineFilename h result item st = (Throw e, st') -> st' = st.
Proof.
  unfold determineFilename, bind, gets, logInfo, log, modify, suggest, ret.
  destruct result as [r|]; cbn [propOf ret throw].
  - destruct (truthy (prop r "silentDownloads")); [|discriminate].
    destruct (filename item); cbn [asString ret throw];
      intros H; inversion H; reflexivity.
  - unfold throw. intros H; inversion H; reflexivity.
Qed.

End FilenameFacts.

Section FilenameClaims.

Local Abbreviation keys := ["silentDownloads"; "defaultPath"].

Lemma pathSeparatorOf_cases (name : string) :
  Substring "/" name \/ Substring (String backslash "") name ->
  (pathSeparatorOf name = slash \/ pathSeparatorOf name = backslash)
  /\ includes name (String (pathSeparatorOf name) "") = true.
Proof.
  intros Hsep. unfold pathSeparatorOf.
  destruct (includes name "/") eqn:E.
  - split; [now left | exact E].
  - split; [now right|]. destruct Hsep as [H|H].
    + apply includes_spec in H. congruence.
    + now apply includes_spec.
Qed.

(** C1. With silent downloads enabled and a host-suggested path that
    contains a separator, the handler answers normally with exactly one
    suggestion: the default directory (configured, else inferred), the
    separator found in the path ('/' when present, else the backslash), and
    what follows the last occurrence of that separator; when no directory
    is known at all the bare file name is suggested.  The conflict action is
    uniquify.  For "/tmp/x/report.pdf" and defaultPath "MyDownloads" the
    suggestion is "MyDownloads/report.pdf". *)
Theorem C1_filename_suggestion (h : Host) (item : DownloadItem) (st : State)
    (name : string) :
  lastError h = None ->
  truthy (prop (sync st) "silentDownloads") = true ->
  filename item = VStr name ->
  Substring "/" name \/ Substring (String backslash "") name ->
  (exists (sep : ascii) (dir file : string),
      (sep = slash \/ sep = backslash)
      /\ name = dir ++ String sep file
      /\ ~ Substring (String sep "") file
      /\ let customPath :=
           jsOr (prop (sync st) "defaultPath") (defaultDownloadPath st) in
         onDeterminingFilename h item st
         = (Return true,
            addSuggested
              (SuggestFile
                 (if truthy customPath
                  then VStr (toStr customPath ++ String sep file)
                  else VStr file)
                 Uniquify) st))
  /\ (name = "/tmp/x/report.pdf" ->
      prop (sync st) "defaultPath" = VStr "MyDownloads" ->
      onDeterminingFilename h item st
      = (Return true,
         addSuggested
           (SuggestFile (VStr "MyDownloads/report.pdf") Uniquify) st)).
Proof.
  intros Hok Hsilent Hname Hsep.
  pose proof (onDeterminingFilename_silent h item st name Hok Hsilent Hname)
    as Hrun.
  split.
  - destruct (pathSeparatorOf_cases name Hsep) as [Hcases Hin].
    destruct (lastSegment_spec _ _ Hin) as (dir & file & Hlast & Hsplit & Hno).
    exists (pathSeparatorOf name), dir, file.
    repeat split; try assumption.
    + now apply includes_false.
    + cbv zeta. rewrite Hrun, Hlast. unfold targetPathOf.
      destruct (truthy _); reflexivity.
  - intros -> Hdir. rewrite Hrun, Hdir. reflexivity.
Qed.

Lemma C1_filename_suggestion_witness :
  suggested (snd (onDeterminingFilename reportHost reportItem reportState))
  = [SuggestFile (VStr "MyDownloads/report.pdf") Uniquify].
Proof.
  assert (Substring "/" "/tmp/x/report.pdf") as Hsub
    by (apply includes_spec; reflexivity).
  destruct (C1_filename_suggestion reportHost reportItem reportState
              "/tmp/x/report.pdf" eq_refl eq_refl eq_refl (or_introl Hsub))
    as [_ Hexample].
  rewrite (Hexample eq_refl eq_refl). reflexivity.
Defined.

(** C8. The handler never lets an exception out: it always returns [true].
    When the settings read fails, or the [try] block throws, the one call it
    makes to [suggest] is the empty suggestion. *)
Theorem C8_filename_fallback (h : Host) (item : DownloadItem) (st : State) :
  (exists st', onDeterminingFilename h item st = (Return true, st'))
  /\ (lastError h <> None
      \/ (exists e st1,
            determineFilename h (storageGet keys h st) item st = (Throw e, st1))
      -> exists st',
           onDeterminingFilename h item st = (Return true, st')
           /\ suggested st' = (suggested st ++ [SuggestDefault])%list).
Proof.
  assert (forall e st1,
            determineFilename h (storageGet keys h st) item st = (Throw e, st1)
            -> exists st',
                 onDeterminingFilename h item st = (Return true, st')
                 /\ suggested st' = (suggested st ++ [SuggestDefault])%list)
    as Hthrow.
  { intros e st1 H. pose proof (determineFilename_throw _ _ _ _ _ _ H) as ->.
    unfold onDeterminingFilename, bind, tryCatch, gets, logInfo, log, modify.
    cbn [logMessage isCritical]. rewrite H.
    unfold logError, log, suggest, modify, ret. eexists. split; reflexivity. }
  split.
  - destruct (determineFilename h (storageGet keys h st) item st)
      as [[[]|e] st1] eqn:E.
    + unfold onDeterminingFilename, bind, tryCatch, gets, logInfo, log, modify.
      cbn [logMessage isCritical]. rewrite E. now eexists.
    + destruct (Hthrow e st1 eq_refl) as (st' & Hrun & _). now exists st'.
  - intros [Hfail | (e & st1 & H)]; [|now apply (Hthrow e st1)].
    apply (Hthrow "TypeError: Cannot read properties of undefined" st).
    rewrite storageGet_failed by assumption. reflexivity.
Qed.

Lemma C8_filename_fallback_witness :
  exists st',
    onDeterminingFilename failingHost reportItem reportState = (Return true, st')
    /\ suggested st' = [SuggestDefault].
Proof.
  apply (proj2 (C8_filename_fallback failingHost reportItem reportState)).
  left. discriminate.
Defined.

End FilenameClaims.

Section NotificationFacts.

Lemma filter_twice {A : Type} (f g : A -> bool) (l : list A) :
  List.filter f (List.filter g l) = List.filter (fun x => g x && f x) l.
Proof.
  induction l as [|x l IH]; [reflexivity|]. cbn [List.filter].
  destruct (g x); cbn [List.filter andb]; [destruct (f x)|]; now rewrite IH.
Qed.

Lemma forEach_clear (P : NotificationRecord -> bool)
    (f : string * NotificationRecord -> M unit)
    (ns cur : list (string * NotificationRecord)) (st : State) :
  (forall kv s,
      f kv s = (Return tt, if P kv.2 then clearNotification kv.1 s else s)) ->
  notifications st = Some cur ->
  forEach ns f st
  = (Return tt,
     setNotifications
       (Some (List.filter (fun kv : string * NotificationRecord =>
                             negb (clearedBy P ns kv.1)) cur)) st).
Proof.
  intros Hf. revert cur st.
  induction ns as [|[id n] ns IH]; intros cur st Hcur.
  - cbn [forEach]. unfold ret, clearedBy. cbn [existsb negb].
    replace (List.filter (fun _ => true) cur) with cur.
    + destruct st; simpl in *; now subst.
    + clear Hcur. induction cur as [|x cur IHc]; [reflexivity|].
      simpl. now f_equal.
  - cbn [forEach]. unfold bind. rewrite Hf. cbn [fst snd].
    destruct (P n) eqn:HP.
    + erewrite IH; [|unfold clearNotification; rewrite Hcur; reflexivity].
      f_equal. unfold setNotifications, clearNotification. cbn. f_equal. f_equal.
      rewrite filter_twice. apply filter_ext. intros [k x].
      unfold clearedBy. cbn [existsb fst snd]. rewrite HP. cbn [andb].
      now rewrite negb_orb.
    + erewrite IH by exact Hcur. f_equal. f_equal. f_equal.
      apply filter_ext. intros [k x]. unfold clearedBy. cbn [existsb fst snd].
      now rewrite HP.
Qed.

Lemma assoc_unique (ns : list (string * NotificationRecord)) (k : string)
    (a b : NotificationRecord) :
  NoDup (map fst ns) -> In (k, a) ns -> In (k, b) ns -> a = b.
Proof.
  induction ns as [|[k' x] ns IH]; intros Hnd Ha Hb; [contradiction|].
  simpl in Hnd. apply NoDup_cons in Hnd as [Hk Hnd].
  destruct Ha as [Ha|Ha], Hb as [Hb|Hb]; try congruence.
  - injection Ha as -> ->. exfalso. apply Hk.
    apply list_elem_of_In, in_map_iff. now exists (k, b).
  - injection Hb as -> ->. exfalso. apply Hk.
    apply list_elem_of_In, in_map_iff. now exists (k, a).
  - now apply IH.
Qed.

(** With distinct ids, the entries a loop clears are the entries that
    satisfy [P]. *)
Lemma filter_clearedBy (P : NotificationRecord -> bool)
    (ns : list (string * NotificationRecord)) :
  NoDup (map fst ns) ->
  List.filter (fun kv : string * NotificationRecord => negb (clearedBy P ns kv.1)) ns
  = List.filter (fun kv : string * NotificationRecord => negb (P kv.2)) ns.
Proof.
  intros Hnd. apply filter_ext_in. intros [k x] Hin. f_equal. cbn [fst snd].
  unfold clearedBy. destruct (P x) eqn:HP.
  - apply existsb_exists. exists (k, x). cbn [fst snd].
    now rewrite HP, String.eqb_refl.
  - destruct (existsb _ ns) eqn:E; [|reflexivity].
    apply existsb_exists in E as ([k' y] & Hin' & H). cbn [fst snd] in H.
    apply andb_true_iff in H as [Hy Hk]. apply String.eqb_eq in Hk as <-.
    rewrite (assoc_unique ns k x y Hnd Hin Hin') in HP. congruence.
Qed.

Lemma filter_clearedBy_all (ns : list (string * NotificationRecord)) :
  List.filter (fun kv : string * NotificationRecord =>
                 negb (clearedBy (fun _ => true) ns kv.1)) ns = [].
Proof.
  assert (forall l, (forall kv, In kv l -> In kv ns) ->
            List.filter (fun kv : string * NotificationRecord =>
                           negb (clearedBy (fun _ => true) ns kv.1)) l = [])
    as H.
  { induction l as [|[k x] l IH]; intros Hsub; [reflexivity|].
    cbn [List.filter fst].
    assert (clearedBy (fun _ => true) ns k = true) as ->.
    { apply existsb_exists. exists (k, x). split; [apply Hsub; now left|].
      cbn. apply String.eqb_refl. }
    cbn [negb]. apply IH. intros kv Hkv. apply Hsub. now right. }
  now apply H.
Qed.

Lemma notificationsGate_ok (h : Host) (st : State) :
  lastError h = None ->
  notificationsGate
    (storageGet ["silentDownloads"; "hideNotifications"] h st) st
  = (Return (truthy (prop (sync st) "silentDownloads")
             && notFalse (prop (sync st) "hideNotifications")), st).
Proof.
  intros Hok. unfold notificationsGate, storageGet, bind, ret.
  rewrite Hok. cbn [propOf ret]. rewrite !prop_filter by set_solver.
  destruct (truthy (prop (sync st) "silentDownloads")); reflexivity.
Qed.

(** The creation sweep removes the notifications the predicate accepts and
    no other. *)
Lemma onCreated_sweeps (h : Host) (item : DownloadItem) (st : State)
    (ns : list (string * NotificationRecord)) :
  lastError h = None ->
  truthy (prop (sync st) "silentDownloads") = true ->
  notFalse (prop (sync st) "hideNotifications") = true ->
  notifications st = Some ns ->
  NoDup (map fst ns) ->
  onCreated h item st
  = (Return tt,
     setNotifications
       (Some (List.filter (fun kv : string * NotificationRecord =>
                             negb (isDownloadRelated kv.2)) ns)) st).
Proof.
  intros Hok Hs Hn Hns Hnd.
  unfold onCreated, bind, tryCatch, gets, logInfo, log, modify.
  cbn [logMessage isCritical]. rewrite notificationsGate_ok by assumption.
  rewrite Hs, Hn. cbn [andb].
  unfold sweepDownloadNotifications, bind, gets. rewrite Hns.
  erewrite (forEach_clear isDownloadRelated); [| |exact Hns].
  - now rewrite filter_clearedBy.
  - intros kv s. unfold bind, modify, logInfo, log, modify, ret.
    destruct (isDownloadRelated kv.2); reflexivity.
Qed.

(** The completion sweep removes every notification. *)
Lemma runTask_clears_all (h : Host) (st : State)
    (ns : list (string * NotificationRecord)) :
  notifications st = Some ns ->
  runTask h ClearAllNotifications st
  = (Return tt, setNotifications (Some []) st).
Proof.
  intros Hns. unfold runTask, bind, gets. rewrite Hns.
  erewrite (forEach_clear (fun _ => true)); [| |exact Hns].
  - now rewrite filter_clearedBy_all.
  - intros kv s. reflexivity.
Qed.

End NotificationFacts.

Section NotificationClaims.

Lemma fieldMatch_spec (field : option string) :
  fieldMatch field = true
  <-> exists s k, field = Some s /\ In k downloadKeywords /\ SubstringCI k s.
Proof.
  destruct field as [s|]; cbn [fieldMatch].
  - rewrite andb_true_iff, someIncluded_lower_spec. split.
    + intros [_ (k & Hin & Hsub)]. now exists s, k.
    + intros (s' & k & [= <-] & Hin & Hsub). split; [|now exists k].
      destruct s; [|reflexivity]. exfalso.
      assert (someIncluded downloadKeywords (toLowerCase "") = true) as H
        by (apply someIncluded_lower_spec; now exists k).
      discriminate H.
  - split; [discriminate | intros (s & k & [=] & _)].
Qed.

(** C6. The creation handler's test on a notification holds exactly when
    the title or the message contains, in any letter case, one of download,
    save, complete, finish.  "Download Complete" passes, "Meeting reminder"
    with a message that contains none of the keywords does not, and with
    both settings enabled the handler dismisses the notifications that pass
    and leaves the others. *)
Theorem C6_notification_match :
  (forall n : NotificationRecord,
      isDownloadRelated n = true
      <-> exists s k,
            (title n = Some s \/ text n = Some s)
            /\ In k ["download"; "save"; "complete"; "finish"]
            /\ SubstringCI k s)
  /\ (forall msg : option string,
        isDownloadRelated (mkNotification (Some "Download Complete") msg)
        = true)
  /\ (forall msg : option string,
        (forall m k, msg = Some m -> In k ["download"; "save"; "complete"; "finish"]
                     -> ~ SubstringCI k m) ->
        isDownloadRelated (mkNotification (Some "Meeting reminder") msg)
        = false)
  /\ (forall (h : Host) (item : DownloadItem) (st : State)
             (ns : list (string * NotificationRecord)),
        lastError h = None ->
        prop (sync st) "silentDownloads" = VBool true ->
        prop (sync st) "hideNotifications" = VBool true ->
        notifications st = Some ns ->
        NoDup (map fst ns) ->
        exists st',
          onCreated h item st = (Return tt, st')
          /\ notifications st'
             = Some (List.filter (fun kv : string * NotificationRecord =>
                                    negb (isDownloadRelated kv.2)) ns)).
Proof.
  split; [|split; [|split]].
  - intros n. unfold isDownloadRelated.
    rewrite orb_true_iff, !fieldMatch_spec. split.
    + intros [(s & k & Hf & Hk & Hs) | (s & k & Hf & Hk & Hs)];
        exists s, k; auto.
    + intros (s & k & [Hf | Hf] & Hk & Hs); [left | right]; now exists s, k.
  - intros msg. reflexivity.
  - intros msg Hmsg. unfold isDownloadRelated. cbn [title text].
    change (fieldMatch (Some "Meeting reminder")) with false. cbn [orb].
    destruct (fieldMatch msg) eqn:E; [|reflexivity].
    apply fieldMatch_spec in E as (m & k & -> & Hk & Hs).
    now destruct (Hmsg m k eq_refl Hk).
  - intros h item st ns Hok Hs Hn Hns Hnd.
    assert (truthy (prop (sync st) "silentDownloads") = true) as Hs'
      by now rewrite Hs.
    assert (notFalse (prop (sync st) "hideNotifications") = true) as Hn'
      by now rewrite Hn.
    rewrite (onCreated_sweeps h item st ns Hok Hs' Hn' Hns Hnd).
    eexists. split; reflexivity.
Qed.

End NotificationClaims.

Section CompletionClaims.

Lemma C6_notification_match_witness :
  exists st',
    onCreated reportHost reportItem silentState = (Return tt, st')
    /\ notifications st' = Some [("reminder-1", meetingReminder)].
Proof.
  destruct C6_notification_match as (_ & _ & _ & Hsweep).
  apply (Hsweep reportHost reportItem silentState _
           eq_refl eq_refl eq_refl eq_refl).
  apply (bool_decide_unpack _). vm_compute. exact I.
Defined.

(** What the completion handler does.  On a transition to 'complete' with
    both settings enabled it starts one 500 ms timer; when the timer fires,
    every notification active at that moment is dismissed, whatever its
    title and message. *)
Lemma completion_sweep_clears_all (h : Host) (delta : DownloadDelta)
    (st : State) :
  lastError h = None ->
  prop (sync st) "silentDownloads" = VBool true ->
  prop (sync st) "hideNotifications" = VBool true ->
  deltaState delta = Some "complete" ->
  onChanged h delta st = (Return tt, addTimer 500 ClearAllNotifications st)
  /\ forall (h' : Host) (st' : State) (ns : list (string * NotificationRecord)),
       notifications st' = Some ns ->
       runTask h' ClearAllNotifications st'
       = (Return tt, setNotifications (Some []) st').
Proof.
  intros Hok Hs Hn Hdelta. split.
  - unfold onChanged, bind, tryCatch, gets, logInfo, log, modify, ret, isComplete.
    rewrite Hdelta. cbn [logMessage isCritical].
    rewrite notificationsGate_ok by assumption. rewrite Hs, Hn. reflexivity.
  - intros h' st' ns Hns. now apply (runTask_clears_all h' st' ns).
Qed.

(** C2 at a state with both settings enabled and two active notifications,
    "Download Complete" and "Meeting reminder".  The reminder matches no
    keyword.  The completion handler starts the 500 ms timer, and once the
    timer has fired the reminder is gone with the download notification:
    the sweep applies no keyword test.  The creation handler, under the
    same settings and on the same notifications, dismisses the download
    notification only and leaves the reminder. *)
Theorem C2_completion_sweep_unfiltered :
  let scheduled := snd (onChanged reportHost completed silentState) in
  let swept := snd (runTask reportHost ClearAllNotifications scheduled) in
  let created := snd (onCreated reportHost reportItem silentState) in
  isDownloadRelated meetingReminder = false
  /\ timers scheduled = [(500, ClearAllNotifications)]
  /\ In ("reminder-1", meetingReminder) (default [] (notifications scheduled))
  /\ ~ In ("reminder-1", meetingReminder) (default [] (notifications swept))
  /\ notifications swept = Some []
  /\ notifications created = Some [("reminder-1", meetingReminder)].
Proof.
  cbv zeta. split; [reflexivity|]. split; [vm_compute; reflexivity|].
  split; [vm_compute; right; now left|].
  split; [vm_compute; intros H; exact H|].
  split; vm_compute; reflexivity.
Qed.

End CompletionClaims.

Section SettingsClaims.

Lemma getSettings_ok (h : Host) (st : State) :
  lastError h = None ->
  getSettings h st
  = (Return (SettingsResponse (object
       [("silentDownloads", VBool (notFalse (prop (sync st) "silentDownloads")));
        ("defaultPath",
         nullish (prop (sync st) "defaultPath") (defaultDownloadPath st));
        ("hideNotifications",
         VBool (notFalse (prop (sync st) "hideNotifications")));
        ("hideDownloadBar", VBool (notFalse (prop (sync st) "hideDownloadBar")));
        ("autoStart", VBool (notFalse (prop (sync st) "autoStart")))])), st).
Proof.
  intros Hok. unfold getSettings, bind, gets, storageGet, logInfo, log, modify.
  rewrite Hok. cbn [propOf ret logMessage isCritical]. unfold ret.
  unfold settingsKeys. rewrite !prop_filter by set_solver. reflexivity.
Qed.

(** Every boolean field of a settings answer is [true] when the store has
    no value for it, whether or not the read succeeded. *)
Lemma getSettings_absent_true (h : Host) (st : State) (k : string) :
  In k booleanKeys -> sync st !! k = None ->
  exists fields st',
    getSettings h st = (Return (SettingsResponse fields), st')
    /\ prop fields k = VBool true.
Proof.
  intros Hk Habs. destruct (lastError h) as [err|] eqn:Herr.
  - unfold getSettings, bind, gets, logError, log, modify, ret. rewrite Herr.
    do 2 eexists. split; [reflexivity|].
    simpl in Hk. destruct Hk as [<-|[<-|[<-|[<-|[]]]]]; reflexivity.
  - rewrite getSettings_ok by assumption. do 2 eexists. split; [reflexivity|].
    simpl in Hk.
    destruct Hk as [<-|[<-|[<-|[<-|[]]]]]; unfold prop at 1, object;
      cbn [list_to_map]; simplify_map_eq; unfold prop; now rewrite Habs.
Qed.

Lemma saveSettings_sync (h : Host) (request : gmap string JsVal) (st : State) :
  lastError h = None ->
  exists st1,
    saveSettings h request st = (Return (SaveResponse true None), st1)
    /\ sync st1 = storageSet (settingsToSave request) (sync st).
Proof.
  intros Hok. unfold saveSettings, bind, logInfo, log, modify, ret.
  rewrite Hok. cbn [logMessage isCritical].
  destruct (truthy (prop request "defaultPath")); eexists; split; reflexivity.
Qed.

(** C3, as the two branches have it.  After a successful saveSettings(S),
    a successful getSettings() answers with the boolean S gave for
    silentDownloads, hideNotifications, hideDownloadBar and autoStart and
    with the string S gave for defaultPath.  conflictAction is not stored:
    the answer has no such field. *)
Theorem C3_settings_round_trip (h1 h2 : Host) (request : gmap string JsVal)
    (st : State) :
  lastError h1 = None ->
  lastError h2 = None ->
  prop request "action" = VStr "saveSettings" ->
  exists st1 fields,
    onMessage h1 request st = (Return (Some (SaveResponse true None)), st1)
    /\ onMessage h2 getSettingsRequest st1
       = (Return (Some (SettingsResponse fields)), st1)
    /\ (forall k b, In k booleanKeys -> prop request k = VBool b ->
                    prop fields k = VBool b)
    /\ (forall p, prop request "defaultPath" = VStr p ->
                  prop fields "defaultPath" = VStr p)
    /\ fields !! "conflictAction" = None.
Proof.
  intros Hok1 Hok2 Haction.
  destruct (saveSettings_sync h1 request st Hok1) as (st1 & Hsave & Hsync).
  assert (forall k v, In k settingsKeys -> prop request k = v ->
                      v <> VUndefined -> prop (sync st1) k = v) as Hstored.
  { intros k v Hk Hv Hdef. unfold prop at 1. rewrite Hsync.
    rewrite (storageSet_in _ _ k v); [reflexivity| |  |assumption].
    - apply (bool_decide_unpack _). vm_compute. exact I.
    - unfold settingsToSave. apply list_elem_of_In. simpl in Hk |- *.
      destruct Hk as [<-|[<-|[<-|[<-|[<-|[]]]]]]; rewrite Hv; auto 6. }
  eexists st1, _. split; [|split; [|split; [|split]]].
  - unfold onMessage, actionIs, bind, logInfo, log, modify, ret.
    cbn [logMessage isCritical]. rewrite Haction.
    change (JsVal_eqb (VStr "saveSettings") (VStr "getSettings")) with false.
    change (JsVal_eqb (VStr "saveSettings") (VStr "saveSettings")) with true.
    cbv iota beta. rewrite Hsave. reflexivity.
  - unfold onMessage, actionIs, bind, logInfo, log, modify, ret.
    cbn [logMessage isCritical].
    change (JsVal_eqb (prop getSettingsRequest "action") (VStr "getSettings"))
      with true.
    cbv iota beta. rewrite getSettings_ok by assumption. reflexivity.
  - intros k b Hk Hb.
    assert (prop (sync st1) k = VBool b) as Hs.
    { apply Hstored; [|assumption|discriminate].
      simpl in Hk |- *. intuition. }
    simpl in Hk.
    destruct Hk as [<-|[<-|[<-|[<-|[]]]]]; unfold prop at 1, object;
      cbn [list_to_map]; simplify_map_eq; rewrite Hs; now destruct b.
  - intros p Hp.
    assert (prop (sync st1) "defaultPath" = VStr p) as Hs.
    { apply Hstored; [|assumption|discriminate]. simpl. auto. }
    unfold prop at 1, object. cbn [list_to_map]. simplify_map_eq.
    now rewrite Hs.
  - unfold object. cbn [list_to_map]. now simplify_map_eq.
Qed.

Lemma C3_settings_round_trip_witness :
  exists st1 fields,
    onMessage reportHost optionsRequest reportState
    = (Return (Some (SaveResponse true None)), st1)
    /\ onMessage reportHost getSettingsRequest st1
       = (Return (Some (SettingsResponse fields)), st1)
    /\ prop fields "hideNotifications" = VBool false
    /\ prop fields "defaultPath" = VStr "MyDownloads"
    /\ fields !! "conflictAction" = None.
Proof.
  destruct (C3_settings_round_trip reportHost reportHost optionsRequest
              reportState eq_refl eq_refl eq_refl)
    as (st1 & fields & Hsave & Hget & Hbool & Hpath & Hconflict).
  exists st1, fields. repeat split; try assumption.
  - apply Hbool; [simpl; auto | reflexivity].
  - apply Hpath. reflexivity.
Defined.

(** The options page saves conflictAction 'overwrite'; the answer to the
    next getSettings has no conflictAction at all. *)
Lemma C3_counterexample :
  let saved := snd (onMessage reportHost optionsRequest reportState) in
  let answer := fst (onMessage reportHost getSettingsRequest saved) in
  prop optionsRequest "conflictAction" = VStr "overwrite"
  /\ fst (onMessage reportHost optionsRequest reportState)
     = Return (Some (SaveResponse true None))
  /\ exists fields,
       responseFields answer = Some fields
       /\ prop fields "conflictAction" = VUndefined
       /\ prop fields "conflictAction" <> prop optionsRequest "conflictAction".
Proof.
  cbv zeta. split; [reflexivity|]. split; [reflexivity|].
  eexists. split; [vm_compute; reflexivity|].
  split; [reflexivity | discriminate].
Qed.

End SettingsClaims.

Section DefaultClaims.

(** C4 at an empty store.  getSettings answers silentDownloads = true, but
    the two download handlers read the missing value as off: the file name
    is left to the host and the download notification stays, where with
    silentDownloads stored as true the path is rewritten and the
    notification is dismissed. *)
Theorem C4_absent_silentDownloads :
  (exists fields,
      responseFields (fst (onMessage reportHost getSettingsRequest emptyStore))
      = Some fields
      /\ prop fields "silentDownloads" = VBool true)
  /\ suggested (snd (onDeterminingFilename reportHost reportItem emptyStore))
     = [SuggestDefault]
  /\ suggested (snd (onDeterminingFilename reportHost reportItem storedTrue))
     = [SuggestFile (VStr "Downloads/report.pdf") Uniquify]
  /\ notifications (snd (onCreated reportHost reportItem emptyStore))
     = Some [("test-download-notification", downloadDone)]
  /\ notifications (snd (onCreated reportHost reportItem storedTrue))
     = Some [].
Proof.
  split; [|repeat split; vm_compute; reflexivity].
  eexists. split; [vm_compute; reflexivity | reflexivity].
Qed.

(** A missing hideNotifications is read as on by both sweeps. *)
Lemma notificationsGate_absent (h : Host) (st : State) :
  lastError h = None ->
  sync st !! "hideNotifications" = None ->
  notificationsGate
    (storageGet ["silentDownloads"; "hideNotifications"] h st) st
  = (Return (truthy (prop (sync st) "silentDownloads")), st).
Proof.
  intros Hok Habs. rewrite notificationsGate_ok by assumption.
  unfold prop at 2. rewrite Habs. cbn [default notFalse].
  now rewrite andb_true_r.
Qed.

End DefaultClaims.

Section LogClaims.

Lemma lastN_short {A : Type} (n : nat) (l : list A) :
  length l <= n -> lastN n l = l.
Proof. intros H. unfold lastN. now replace (length l - n) with 0 by lia. Qed.

Lemma lastN_length {A : Type} (n : nat) (l : list A) :
  length (lastN n l) = Nat.min n (length l).
Proof. unfold lastN. rewrite length_drop. lia. Qed.

Lemma lastN_app_lastN {A : Type} (n : nat) (a b : list A) :
  lastN n (lastN n a ++ b)%list = lastN n (a ++ b)%list.
Proof.
  destruct (Nat.le_gt_cases (length a) n) as [Hle|Hgt].
  - now rewrite (lastN_short n a).
  - unfold lastN at 1 3. rewrite !length_app, lastN_length.
    replace (Nat.min n (length a) + length b - n) with (length b) by lia.
    replace (length a + length b - n) with ((length a - n) + length b) by lia.
    unfold lastN. rewrite <- drop_drop. f_equal.
    rewrite drop_app_le by lia. reflexivity.
Qed.

Lemma pushCapped_lastN (e : LogEntry) (logs : option (list LogEntry)) :
  length (default [] logs) <= 50 ->
  pushCapped e logs = lastN 50 (default [] logs ++ [e])%list.
Proof.
  intros Hcap. unfold pushCapped. set (l := default [] logs) in *.
  destruct (Nat.ltb_spec 50 (length (l ++ [e])%list)) as [Hlt|Hge].
  - rewrite length_app in Hlt. cbn [length] in Hlt.
    unfold lastN. rewrite length_app. cbn [length].
    replace (length l + 1 - 50) with 1 by lia.
    destruct (l ++ [e])%list; reflexivity.
  - now rewrite lastN_short.
Qed.

Lemma logMessage_stored (ts : string) (lvl : Level) (msg : string)
    (d : option string) (st : State) :
  length (stored st) <= 50 ->
  stored (logMessage ts lvl msg d st)
  = if isCritical lvl
    then lastN 50 (stored st ++ [mkLogEntry ts lvl msg d])%list
    else stored st.
Proof.
  intros Hcap. unfold logMessage, stored in *.
  destruct (isCritical lvl); [|reflexivity].
  cbn [errorLogs setErrorLogs default]. now apply pushCapped_lastN.
Qed.

Lemma runLog_stored (calls : list LogCall) (st : State) :
  length (stored st) <= 50 ->
  stored (runLog calls st)
  = lastN 50 (stored st ++ map entryOf (List.filter critical calls))%list.
Proof.
  revert st. induction calls as [|[[[ts lvl] msg] d] calls IH]; intros st Hcap.
  - cbn. rewrite app_nil_r. now rewrite lastN_short.
  - change (runLog (_ :: calls) st)
      with (runLog calls (logMessage ts lvl msg d st)).
    pose proof (logMessage_stored ts lvl msg d st Hcap) as Hstep.
    rewrite IH.
    + rewrite Hstep. cbn [List.filter]. unfold critical at 2. cbn [callLevel].
      destruct (isCritical lvl); [|reflexivity].
      cbn [map entryOf]. rewrite lastN_app_lastN, <- app_assoc. reflexivity.
    + rewrite Hstep. destruct (isCritical lvl); [|assumption].
      rewrite lastN_length. lia.
Qed.

Lemma pushCapped_length (e : LogEntry) (logs : option (list LogEntry)) :
  length (default [] logs) <= 50 -> length (pushCapped e logs) <= 50.
Proof.
  intros H. rewrite pushCapped_lastN by exact H. rewrite lastN_length. lia.
Qed.

(** Each event keeps the store and the queued reads within the cap. *)
Lemma logEvent_capped (st : State) (pending : list PendingWrite)
    (e : LogEvent) :
  length (stored st) <= 50 -> pendingCapped pending ->
  length (stored (fst (logEvent (st, pending) e))) <= 50
  /\ pendingCapped (snd (logEvent (st, pending) e)).
Proof.
  intros Hst Hp. destruct e as [c|]; cbn [logEvent].
  - destruct (isCritical (callLevel c)); cbn [fst snd]; split; auto.
    apply Forall_app. split; [exact Hp|]. constructor; [exact Hst|constructor].
  - destruct pending as [|p rest]; cbn [fst snd]; [split; auto|].
    apply Forall_cons in Hp as [Hhead Hrest]. split; [|exact Hrest].
    unfold stored. cbn [errorLogs setErrorLogs default].
    now apply pushCapped_length.
Qed.

Lemma runLogEvents_capped (events : list LogEvent) (st : State)
    (pending : list PendingWrite) :
  length (stored st) <= 50 -> pendingCapped pending ->
  length (stored (fst (runLogEvents events (st, pending)))) <= 50.
Proof.
  unfold runLogEvents. revert st pending.
  induction events as [|e events IH]; intros st pending Hst Hp; [exact Hst|].
  cbn [fold_left].
  destruct (logEvent_capped st pending e Hst Hp) as [Hst' Hp'].
  destruct (logEvent (st, pending) e) as [st' pending']. now apply IH.
Qed.

(** Calls that do not overlap are [logMessage] steps. *)
Lemma oneAfterAnother_runLog (calls : list LogCall) (st : State) :
  runLogEvents (oneAfterAnother calls) (st, []) = (runLog calls st, []).
Proof.
  unfold runLogEvents, runLog. revert st.
  induction calls as [|[[[ts lvl] msg] d] calls IH]; intros st; [reflexivity|].
  cbn [oneAfterAnother flat_map List.app fold_left logEvent callLevel entryOf].
  fold (oneAfterAnother calls). unfold logMessage.
  destruct (isCritical lvl); cbn [List.app newEntry readLogs]; apply IH.
Qed.

(** C5, as the function has it.  However calls and callbacks interleave, the
    store never holds more than 50 entries and an info call changes nothing.
    A call whose callback runs before anything else appends its entry
    exactly when its level is warn or error.  When no two calls overlap
    (each callback has run before the next call is made), the store holds
    the 50 most recent warn/error entries in the order they were logged,
    the oldest gone first; 60 such warn/error calls on an empty store leave
    the last 50, the first 10 gone. *)
Theorem C5_log_store (calls : list LogCall) (events : list LogEvent)
    (st : State) :
  length (stored st) <= 50 ->
  length (stored (fst (runLogEvents events (st, [])))) <= 50
  /\ (forall world ts msg d,
        logEvent world (Called (ts, Info, msg, d)) = world)
  /\ (forall ts lvl msg d,
        (lvl = Warn \/ lvl = Error ->
         exists kept,
           stored (fst (runLogEvents [Called (ts, lvl, msg, d); CallbackRan]
                          (st, [])))
           = (kept ++ [mkLogEntry ts lvl msg d])%list)
        /\ (~ (lvl = Warn \/ lvl = Error) ->
            runLogEvents [Called (ts, lvl, msg, d); CallbackRan] (st, [])
            = (st, [])))
  /\ stored (fst (runLogEvents (oneAfterAnother calls) (st, [])))
     = lastN 50 (stored st ++ map entryOf (List.filter critical calls))%list
  /\ (stored st = [] -> length calls = 60 ->
      Forall (fun c => callLevel c = Warn \/ callLevel c = Error) calls ->
      stored (fst (runLogEvents (oneAfterAnother calls) (st, [])))
      = map entryOf (drop 10 calls)
      /\ length (stored (fst (runLogEvents (oneAfterAnother calls) (st, []))))
         = 50).
Proof.
  intros Hcap. split; [|split; [|split; [|split]]].
  - apply runLogEvents_capped; [exact Hcap | constructor].
  - intros [st0 pending] ts msg d. reflexivity.
  - intros ts lvl msg d.
    change [Called (ts, lvl, msg, d); CallbackRan]
      with (oneAfterAnother [(ts, lvl, msg, d)]).
    rewrite oneAfterAnother_runLog. cbn [fst runLog fold_left]. split.
    + intros Hlvl. rewrite logMessage_stored by assumption.
      assert (isCritical lvl = true) as -> by (destruct Hlvl; now subst).
      unfold lastN. rewrite drop_app_le by (rewrite length_app; cbn; lia).
      now eexists.
    + intros Hlvl. f_equal. unfold logMessage.
      destruct lvl; cbn [isCritical]; try reflexivity; exfalso; auto.
  - rewrite oneAfterAnother_runLog. cbn [fst]. now apply runLog_stored.
  - intros Hempty Hlen Hall. rewrite oneAfterAnother_runLog. cbn [fst].
    rewrite runLog_stored by assumption. rewrite Hempty. cbn [app].
    assert (List.filter critical calls = calls) as ->.
    { clear Hlen. induction Hall as [|c l Hc Hl IH]; [reflexivity|].
      cbn [List.filter]. unfold critical at 1.
      assert (isCritical (callLevel c) = true) as ->
        by (destruct Hc as [-> | ->]; reflexivity).
      now rewrite IH. }
    unfold lastN. rewrite !length_map, Hlen. cbn [Nat.sub].
    rewrite <- !skipn_map. split; [reflexivity|].
    rewrite length_drop, length_map. lia.
Qed.

Lemma C5_log_store_witness :
  stored (fst (runLogEvents (oneAfterAnother sixtyCalls) (emptyStore, [])))
  = map entryOf (drop 10 sixtyCalls)
  /\ length (stored (fst (runLogEvents (oneAfterAnother sixtyCalls)
                            (emptyStore, [])))) = 50.
Proof.
  assert (length (stored emptyStore) <= 50) as Hcap by (cbn; lia).
  destruct (C5_log_store sixtyCalls [] emptyStore Hcap)
    as (_ & _ & _ & _ & Hsixty).
  apply Hsixty; [reflexivity | reflexivity |].
  apply List.Forall_forall. intros c Hin.
  apply in_map_iff in Hin as (i & <- & _). cbn.
  destruct (Nat.even i); auto.
Defined.

(** Two warn/error calls made in a row, before either callback has run:
    both callbacks push onto the empty log they were given and the second
    write replaces the first, so one entry is stored, not two.  Sixty calls
    made in a row leave one entry, not fifty. *)
Lemma C5_counterexample :
  stored (fst (runLogEvents (inARow [firstFailure; secondFailure])
                 (emptyStore, [])))
  = [entryOf secondFailure]
  /\ callLevel firstFailure = Error
  /\ callLevel secondFailure = Warn
  /\ length (stored (fst (runLogEvents (inARow sixtyCalls) (emptyStore, []))))
     = 1.
Proof. repeat split; reflexivity. Qed.

End LogClaims.

(** *** The cap holds whatever the service worker does *)

Section CapInvariant.

Create HintDb cap.

Lemma keeps_ret {A : Type} (a : A) : KeepsCap (ret a).
Proof. intros st H. exact H. Qed.

Lemma keeps_throw {A : Type} (e : string) : KeepsCap (@throw A e).
Proof. intros st H. exact H. Qed.

Lemma keeps_gets {A : Type} (f : State -> A) : KeepsCap (gets f).
Proof. intros st H. exact H. Qed.

Lemma keeps_bind {A B : Type} (m : M A) (k : A -> M B) :
  KeepsCap m -> (forall a, KeepsCap (k a)) -> KeepsCap (bind m k).
Proof.
  intros Hm Hk st H. unfold bind. specialize (Hm st H).
  destruct (m st) as [[a|e] st1]; cbn [snd] in *; [now apply Hk | exact Hm].
Qed.

Lemma keeps_tryCatch {A : Type} (m : M A) (handler : string -> M A) :
  KeepsCap m -> (forall e, KeepsCap (handler e)) -> KeepsCap (tryCatch m handler).
Proof.
  intros Hm Hh st H. unfold tryCatch. specialize (Hm st H).
  destruct (m st) as [[a|e] st1]; cbn [snd] in *; [exact Hm | now apply Hh].
Qed.

Lemma keeps_modify (f : State -> State) :
  (forall st, errorLogs (f st) = errorLogs st) -> KeepsCap (modify f).
Proof.
  intros Hf st H. unfold modify, capped, stored in *. cbn [snd].
  now rewrite Hf.
Qed.

Lemma logMessage_capped (ts : string) (lvl : Level) (msg : string)
    (d : option string) (st : State) :
  capped st -> capped (logMessage ts lvl msg d st).
Proof.
  intros H. unfold capped. rewrite logMessage_stored by exact H.
  destruct (isCritical lvl); [|exact H]. rewrite lastN_length. lia.
Qed.

Lemma keeps_log (h : Host) (lvl : Level) (msg : string) (d : option string) :
  KeepsCap (log h lvl msg d).
Proof. intros st H. now apply logMessage_capped. Qed.

Lemma keeps_forEach {A : Type} (l : list A) (f : A -> M unit) :
  (forall x, KeepsCap (f x)) -> KeepsCap (forEach l f).
Proof.
  intros Hf. induction l as [|x l IH]; cbn [forEach].
  - apply keeps_ret.
  - apply keeps_bind; [apply Hf | intros _; exact IH].
Qed.

Lemma keeps_if {A : Type} (b : bool) (m1 m2 : M A) :
  KeepsCap m1 -> KeepsCap m2 -> KeepsCap (if b then m1 else m2).
Proof. now destruct b. Qed.

Lemma keeps_propOf (o : option (gmap string JsVal)) (k : string) :
  KeepsCap (propOf o k).
Proof. destruct o; [apply keeps_ret | apply keeps_throw]. Qed.

Lemma keeps_asString (v : JsVal) : KeepsCap (asString v).
Proof. destruct v; (apply keeps_ret || apply keeps_throw). Qed.

#[local] Hint Resolve keeps_ret keeps_throw keeps_gets keeps_log keeps_propOf
  keeps_asString : cap.
#[local] Hint Extern 2 (KeepsCap (bind _ _)) =>
  (apply keeps_bind; [|intros ?]) : cap.
#[local] Hint Extern 2 (KeepsCap (tryCatch _ _)) =>
  (apply keeps_tryCatch; [|intros ?]) : cap.
#[local] Hint Extern 2 (KeepsCap (forEach _ _)) =>
  (apply keeps_forEach; intros ?) : cap.
#[local] Hint Extern 2 (KeepsCap (modify _)) =>
  (apply keeps_modify; intros ?; reflexivity) : cap.
#[local] Hint Extern 3 (KeepsCap (if _ then _ else _)) =>
  apply keeps_if : cap.
#[local] Hint Extern 3 (KeepsCap (match ?x with _ => _ end)) =>
  destruct x : cap.
#[local] Hint Unfold logInfo logError suggest : cap.

Ltac keeps := autounfold with cap; auto 30 with cap.

Lemma keeps_await {A : Type} (p : Awaited A) : KeepsCap (await p).
Proof. destruct p; [apply keeps_ret | apply keeps_throw]. Qed.

Lemma keeps_setDefaultDownloadPath (h : Host)
    (recent : Awaited (list DownloadItem)) (platform : Awaited string) :
  KeepsCap (setDefaultDownloadPath h recent platform).
Proof.
  pose proof (@keeps_await string) as Hs.
  pose proof (@keeps_await (list DownloadItem)) as Hl.
  unfold setDefaultDownloadPath, platformDefault. keeps.
Qed.

Lemma keeps_onInstalled (h : Host) (recent : Awaited (list DownloadItem))
    (platform : Awaited string) :
  KeepsCap (onInstalled h recent platform).
Proof.
  pose proof (keeps_setDefaultDownloadPath h recent platform) as Hset.
  unfold onInstalled. keeps.
Qed.

Lemma keeps_onStartup (h : Host) (recent : Awaited (list DownloadItem))
    (platform : Awaited string) :
  KeepsCap (onStartup h recent platform).
Proof.
  pose proof (keeps_setDefaultDownloadPath h recent platform) as Hset.
  unfold onStartup. keeps.
Qed.

(** The inference never throws and always leaves a string. *)
Lemma setDefaultDownloadPath_total (h : Host)
    (recent : Awaited (list DownloadItem)) (platform : Awaited string)
    (st : State) :
  exists st' dir,
    setDefaultDownloadPath h recent platform st = (Return tt, st')
    /\ defaultDownloadPath st' = VStr dir.
Proof.
  unfold setDefaultDownloadPath, platformDefault, tryCatch, bind, await,
    modify, logInfo, logError, log, ret, throw.
  destruct recent as [[|lastDownload rest]|e]; cbn [logMessage isCritical].
  - destruct platform; do 2 eexists; split; reflexivity.
  - destruct (filename lastDownload) as [| |[]|name]; cbn [truthy asString];
      try (destruct platform; do 2 eexists; split; reflexivity).
    destruct (negb (String.eqb name "")); cbn [ret];
      [|destruct platform]; do 2 eexists; split; reflexivity.
  - do 2 eexists. split; reflexivity.
Qed.

Lemma keeps_onDeterminingFilename (h : Host) (item : DownloadItem) :
  KeepsCap (onDeterminingFilename h item).
Proof. unfold onDeterminingFilename, determineFilename. keeps. Qed.

Lemma keeps_onCreated (h : Host) (item : DownloadItem) :
  KeepsCap (onCreated h item).
Proof.
  unfold onCreated, notificationsGate, sweepDownloadNotifications. keeps.
Qed.

Lemma keeps_onChanged (h : Host) (delta : DownloadDelta) :
  KeepsCap (onChanged h delta).
Proof. unfold onChanged, notificationsGate. keeps. Qed.

Lemma keeps_runTask (h : Host) (t : Task) : KeepsCap (runTask h t).
Proof. unfold runTask. keeps. Qed.

Lemma keeps_clearLogs : KeepsCap (modify (setErrorLogs (Some []))).
Proof. intros st _. unfold capped, stored. cbn. lia. Qed.

Lemma keeps_onMessage (h : Host) (request : gmap string JsVal) :
  KeepsCap (onMessage h request).
Proof.
  pose proof keeps_clearLogs as Hclear.
  unfold onMessage, getSettings, saveSettings. keeps.
Qed.

(** Every event keeps the log store within its cap, so it is never above
    50 entries in any state the service worker reaches from one that is
    within the cap (an absent or empty log is). *)
Lemma step_capped (st : State) (e : Event) : capped st -> capped (step st e).
Proof.
  intros H.
  destruct e as [[[[ts lvl] msg] d]|h recent platform|h recent platform
                 |h item|h item|h delta|h t|h r];
    cbn [step].
  - now apply logMessage_capped.
  - now apply keeps_onInstalled.
  - now apply keeps_onStartup.
  - now apply keeps_onDeterminingFilename.
  - now apply keeps_onCreated.
  - now apply keeps_onChanged.
  - now apply keeps_runTask.
  - now apply keeps_onMessage.
Qed.

Lemma runEvents_capped (events : list Event) (st : State) :
  capped st -> capped (runEvents events st).
Proof.
  unfold runEvents. revert st.
  induction events as [|e events IH]; intros st H; [exact H|].
  cbn [fold_left]. apply IH. now apply step_capped.
Qed.

End CapInvariant.


(** ** The content script *)

Import Content.

Section ObserverFacts.





End ObserverFacts.

Section ObserverClaims.





End ObserverClaims.

Section OverrideClaims.

Lemma stringMatches_spec (v : JsVal) :
  stringMatches v = true
  <-> exists s k, v = VStr s /\ In k notificationKeywords /\ SubstringCI k s.
Proof.
  destruct v as [| |b|s]; cbn [stringMatches];
    try (split; [discriminate | intros (s' & k & [=] & _)]).
  rewrite andb_true_iff, someIncluded_lower_spec. split.
  - intros [_ (k & Hin & Hsub)]. now exists s, k.
  - intros (s' & k & [= <-] & Hin & Hsub). split; [|now exists k].
    destruct s; [|reflexivity]. exfalso.
    assert (someIncluded notificationKeywords (toLowerCase "") = true) as H
      by (apply someIncluded_lower_spec; now exists k).
    discriminate H.
Qed.

Lemma isDownloadNotification_spec (title : JsVal)
    (options : option NotificationOptions) :
  isDownloadNotification title options = true
  <-> exists s k,
        (title = VStr s \/ exists o, options = Some o /\ body o = VStr s)
        /\ In k notificationKeywords /\ SubstringCI k s.
Proof.
  unfold isDownloadNotification. split.
  - destruct (stringMatches title) eqn:E.
    + intros _. apply stringMatches_spec in E as (s & k & Hs & Hk & Hsub).
      exists s, k. auto.
    + destruct options as [o|]; [|discriminate]. intros H.
      apply stringMatches_spec in H as (s & k & Hs & Hk & Hsub).
      exists s, k. split; [right; now exists o | auto].
  - intros (s & k & [Ht | (o & -> & Hb)] & Hk & Hsub).
    + assert (stringMatches title = true) as ->; [|reflexivity].
      apply stringMatches_spec. now exists s, k.
    + destruct (stringMatches title); [reflexivity|].
      apply stringMatches_spec. now exists s, k.
Qed.

(** C10.  The constructor override answers with the no-op object exactly
    when the title or the body is a string that contains, in any letter
    case, one of its eleven keywords; "file" and "downloading" are among
    them, so "New file shared" is suppressed. *)
Theorem C10_notification_override :
  (forall (title : JsVal) (options : option NotificationOptions),
      Notification title options = NoOpNotification
      <-> exists s k,
            (title = VStr s \/ exists o, options = Some o /\ body o = VStr s)
            /\ In k ["download"; "downloaded"; "downloading"; "complete";
                     "saved"; "finished"; "file"; ".zip"; ".pdf"; ".exe";
                     ".dmg"]
            /\ SubstringCI k s)
  /\ (forall (title : JsVal) (options : option NotificationOptions)
             (s k : string),
        title = VStr s \/ (exists o, options = Some o /\ body o = VStr s) ->
        k = "file" \/ k = "downloading" ->
        SubstringCI k s ->
        Notification title options = NoOpNotification)
  /\ (forall options : option NotificationOptions,
        Notification (VStr "New file shared") options = NoOpNotification).
Proof.
  assert (forall title options,
             Notification title options = NoOpNotification
             <-> isDownloadNotification title options = true) as Hno.
  { intros title options. unfold Notification.
    destruct (isDownloadNotification title options); split;
      congruence || discriminate. }
  split; [|split].
  - intros title options. rewrite Hno. apply isDownloadNotification_spec.
  - intros title options s k Hwhere Hk Hsub. apply Hno.
    apply isDownloadNotification_spec. exists s, k. repeat split; auto.
    destruct Hk as [-> | ->]; cbn; auto 12.
  - intros options. reflexivity.
Qed.



End OverrideClaims.

Section OverrideWitnesses.


Lemma C10_notification_override_witness :
  Notification (VStr "New file shared") None = NoOpNotification
  /\ Notification (VStr "Update") (Some (mkOptions (VStr "Still DOWNLOADING")))
     = NoOpNotification.
Proof.
  destruct C10_notification_override as (_ & Hkey & _). split.
  - apply (Hkey _ _ "New file shared" "file"); [now left | now left |].
    apply includes_lower_spec. reflexivity.
  - apply (Hkey _ _ "Still DOWNLOADING" "downloading"); [|now right|].
    + right. now eexists.
    + apply includes_lower_spec. reflexivity.
Defined.

End OverrideWitnesses.

(** ** The functions on small inputs *)

Section Examples.

Example split_report :
  split slash "/tmp/x/report.pdf" = [""; "tmp"; "x"; "report.pdf"].
Proof. reflexivity. Qed.

Example lastSegment_windows :
  let name := String "C" (String ":" (String backslash
                (String "d" (String backslash "a.txt")))) in
  pathSeparatorOf name = backslash /\ lastSegment backslash name = VStr "a.txt".
Proof. split; reflexivity. Qed.

Example lastSegment_mixed :
  let name := String "a" (String backslash "b/c.txt") in
  pathSeparatorOf name = slash /\ lastSegment slash name = VStr "c.txt".
Proof. split; reflexivity. Qed.

Example directoryOf_report :
  directoryOf "/tmp/x/report.pdf" = "/tmp/x" /\ directoryOf "report.pdf" = "".
Proof. split; reflexivity. Qed.

Example toLowerCase_title :
  toLowerCase "Download Complete" = "download complete".
Proof. reflexivity. Qed.

Example no_directory_known :
  targetPathOf (jsOr (VStr "") (VStr "")) slash (VStr "report.pdf")
  = VStr "report.pdf".
Proof. reflexivity. Qed.

Example silent_off_defers :
  suggested (snd (onDeterminingFilename reportHost reportItem
                    (setSync (object [("silentDownloads", VBool false)])
                             reportState)))
  = [SuggestDefault].
Proof. vm_compute. reflexivity. Qed.

Example classify_capitalShelf : classify capitalShelf = true.
Proof. reflexivity. Qed.

Example classify_wrappedCapitalShelf : classify wrappedCapitalShelf = false.
Proof. reflexivity. Qed.

Example classify_wrapped_shelf :
  classify (Element false "wrapper" "" None
              [Element false "x" "download-shelf" None []])
  = true.
Proof. reflexivity. Qed.

Example classify_svgIcon :
  classNameOf svgIcon = "[object SVGAnimatedString]"
  /\ classify svgIcon = false
  /\ classify (Element false "wrapper" "" None [svgIcon]) = true.
Proof. repeat split; reflexivity. Qed.

Example classify_toast :
  textContent toast = "File Saved" /\ classify toast = true.
Proof. split; reflexivity. Qed.

Example observer_stops_at_first_match :
  observerCallback [[TextNode "download"; paragraph];
                    [toast; capitalShelf]; [paragraph]]
  = (Some 50, [paragraph; toast]).
Proof. reflexivity. Qed.

Example observer_nothing_to_hide :
  observerCallback [[paragraph; wrappedCapitalShelf]; []]
  = (None, [paragraph; wrappedCapitalShelf]).
Proof. reflexivity. Qed.

Example console_plain_passes :
  consoleLog [AString "hello"; AOther] = Some [AString "hello"; AOther].
Proof. reflexivity. Qed.

Example console_empty_call_passes : consoleLog [] = Some [].
Proof. reflexivity. Qed.

Example notification_without_keyword :
  Notification (VStr "Meeting reminder") None
  = RealNotification (VStr "Meeting reminder") None.
Proof. reflexivity. Qed.

Example completion_sweep_without_store :
  fst (runTask reportHost ClearAllNotifications
         (setNotifications None reportState))
  = Throw "TypeError: Cannot convert undefined or null to object".
Proof. reflexivity. Qed.

End Examples.
